(** * Metin2FishBotv2: [managers/process_memory_manager.py]

    A shallow embedding of the [Process] class: pointer-chain memory reads
    ([read_memory]), process discovery ([get_by_name]), bulk termination
    ([kill_by_name]) and the focus / restore pair ([focus],
    [focus_back_to_last_window]).

    Python integers are [Z].  Python strings are [string]; [int(s, 16)] is
    modelled on ASCII text, and [str.casefold], which is Unicode case
    folding, is a parameter of the functions that use it.  Code that raises
    runs in a state-and-exception monad in which, as in Python, the state
    survives a raised exception.  Calls into the operating system are
    modelled by what they return to the Python code.  The calls that open a
    process, list its modules, look up a module path, read a process name,
    kill a process, read memory, look up a window, press a key, attach thread
    input, set the foreground window and send a message can raise;
    [EnumProcesses], [CloseHandle], [GetForegroundWindow],
    [GetCurrentThreadId], [process_iter], [time.sleep] and logging are taken
    not to. *)

From Stdlib Require Import ZArith List String Ascii Bool Lia.
From Stdlib.Strings Require Import Byte.
Import ListNotations.

Local Open Scope string_scope.
Local Open Scope list_scope.
Local Open Scope Z_scope.

(** ** Exceptions and the state-and-exception monad *)

Inductive exn : Type :=
| ValueError (literal : string)     (* int(s, 16) on a malformed literal *)
| AttributeError (attr : string)    (* delattr of an attribute that is not set *)
| Exception (msg : string)          (* raise Exception(f"...") *)
| TypeError (msg : string)          (* raise None, a None argument to a win32 call *)
| OSError (code : Z)                (* pywintypes.error and the like *)
| ArgumentError (argument : Z)      (* ctypes.ArgumentError: argument n does not convert *)
| AccessDenied                      (* psutil.AccessDenied *)
| NoSuchProcess.                    (* psutil.NoSuchProcess *)

Inductive result (A : Type) : Type :=
| Return (a : A)
| Raise (e : exn).

Arguments Return {A} a.
Arguments Raise {A} e.

Definition raises {A : Type} (r : result A) : bool :=
  match r with
  | Return _ => false
  | Raise _ => true
  end.

Module Py.

Definition M (S A : Type) : Type := S -> result A * S.

Definition ret {S A : Type} (a : A) : M S A := fun s => (Return a, s).

Definition throw {S A : Type} (e : exn) : M S A := fun s => (Raise e, s).

Definition bind {S A B : Type} (m : M S A) (k : A -> M S B) : M S B :=
  fun s =>
    match m s with
    | (Return a, s') => k a s'
    | (Raise e, s') => (Raise e, s')
    end.

(** [try: body except Exception as e: handler e else: orelse] *)
Definition try_except_else {S A B : Type}
           (body : M S A) (handler : exn -> M S B) (orelse : A -> M S B) : M S B :=
  fun s =>
    match body s with
    | (Return a, s') => orelse a s'
    | (Raise e, s') => handler e s'
    end.

(** [try: body finally: cleanup] *)
Definition finally {S A : Type} (body : M S A) (cleanup : M S unit) : M S A :=
  fun s =>
    match body s with
    | (r, s') =>
        match cleanup s' with
        | (Return _, s'') => (r, s'')
        | (Raise e, s'') => (Raise e, s'')
        end
    end.

Definition get {S : Type} : M S S := fun s => (Return s, s).

Definition modify {S : Type} (f : S -> S) : M S unit := fun s => (Return tt, f s).

(** Turns the outcome of a call into a computation. *)
Definition lift {S A : Type} (r : result A) : M S A := fun s => (r, s).

End Py.

Notation "x <- m ;; k" := (Py.bind m (fun x => k))
  (at level 61, m at next level, right associativity).
Notation "m ;;; k" := (Py.bind m (fun _ => k))
  (at level 61, right associativity).

(** ** [int(s, 16)]

    The literal is stripped of white space (tab, line feed, vertical tab, form
    feed, carriage return, space) on both sides, may carry a sign and
    a [0x] / [0X] prefix, and consists of hexadecimal digits that single
    underscores may separate (one underscore may also follow the prefix). *)

Definition is_space (c : ascii) : bool :=
  let n := nat_of_ascii c in
  ((9 <=? n) && (n <=? 13) || (n =? 32))%nat.

Definition hex_digit (c : ascii) : option Z :=
  let n := Z.of_nat (nat_of_ascii c) in
  if (48 <=? n) && (n <=? 57) then Some (n - 48)
  else if (97 <=? n) && (n <=? 102) then Some (n - 87)
  else if (65 <=? n) && (n <=? 70) then Some (n - 55)
  else None.

Definition is_underscore (c : ascii) : bool := Ascii.eqb c "_"%char.

Fixpoint lstrip (s : string) : string :=
  match s with
  | String c s' => if is_space c then lstrip s' else s
  | EmptyString => EmptyString
  end.

Fixpoint all_space (s : string) : bool :=
  match s with
  | String c s' => is_space c && all_space s'
  | EmptyString => true
  end.

(** Scans the digits; [acc] is the value so far, [digits] the number of digits
    seen and [prev_us] tells whether the previous character was an underscore.
    The scan stops at the first character that is neither a digit nor an
    underscore; what is left must be white space. *)
Fixpoint scan_digits (s : string) (acc : Z) (digits : nat) (prev_us : bool) : option Z :=
  match s with
  | EmptyString =>
      if prev_us then None
      else match digits with O => None | _ => Some acc end
  | String c s' =>
      if is_underscore c then
        if prev_us then None else scan_digits s' acc digits true
      else
        match hex_digit c with
        | Some d => scan_digits s' (16 * acc + d) (S digits) false
        | None =>
            if prev_us then None
            else match digits with
                 | O => None
                 | _ => if all_space s then Some acc else None
                 end
        end
  end.

Definition skip_prefix (s : string) : string :=
  match s with
  | String "0" (String "x" rest) | String "0" (String "X" rest) =>
      match rest with
      | String "_" rest' => rest'
      | _ => rest
      end
  | _ => s
  end.

Definition parse_unsigned (s : string) : option Z :=
  let body := skip_prefix s in
  match body with
  | String "_" _ => None
  | _ => scan_digits body 0 O false
  end.

Definition int_base16 (s : string) : result Z :=
  let t := lstrip s in
  let parsed :=
    match t with
    | String "-" t' => option_map Z.opp (parse_unsigned t')
    | String "+" t' => parse_unsigned t'
    | _ => parse_unsigned t
    end in
  match parsed with
  | Some z => Return z
  | None => Raise (ValueError s)
  end.

(** ** The target process's memory and [ReadProcessMemory] *)

Record Target : Type := {
  handle_valid : bool;              (* whether [process_handle] is a usable handle *)
  byte_at : Z -> option byte        (* the mapped byte the system finds for an address argument *)
}.

Fixpoint read_bytes (t : Target) (addr : Z) (n : nat) : option (list byte) :=
  match n with
  | O => Some []
  | S n' =>
      match byte_at t addr, read_bytes t (addr + 1) n' with
      | Some b, Some bs => Some (b :: bs)
      | _, _ => None
      end
  end.

(** The unsigned value of a little-endian buffer, as [c_ubyte.value] and
    [c_uint.value] give it. *)
Fixpoint le_value (bs : list byte) : Z :=
  match bs with
  | [] => 0
  | b :: bs' => Z.of_N (Byte.to_N b) + 256 * le_value bs'
  end.

(** [ctypes.sizeof(data)]: one byte for [c_ubyte], four for [c_uint]. *)
Definition sizeof_data (byte : bool) : nat := if byte then 1%nat else 4%nat.

(** What the system does with a read request it receives: [Some v] when the
    read succeeds and stores [v] in the buffer; [None] when it fails (a
    handle that is not valid, bytes that are not mapped), which leaves the
    buffer as it was. *)
Definition kernel_read (t : Target) (addr : Z) (size : nat) : option Z :=
  if handle_valid t then option_map le_value (read_bytes t addr size) else None.

(** The function is called through [ctypes] with no [argtypes], so an [int]
    argument is converted as a C [long], unsigned first and then signed; on
    Windows, where alone [ctypes.windll] exists, a [long] has 32 bits.  An
    [int] outside this range does not convert. *)
Definition ctypes_int (x : Z) : bool :=
  (-2147483648 <=? x) && (x <=? 4294967295).

(** [ReadProcessMemory(handle, addr, byref(data), size, ...)].  The address is
    argument 2 of the call; the handle and the size are small numbers that
    always convert.  When the address does not convert the call raises and the
    system is not reached. *)
Definition ReadProcessMemory (t : Target) (addr : Z) (size : nat) : result (option Z) :=
  if ctypes_int addr then Return (kernel_read t addr size)
  else Raise (ArgumentError 2).

(** ** [Process.read_memory] *)

Inductive offset : Type :=
| OInt (z : Z)
| OStr (s : string).

Record rm_state : Type := {
  data : Z;                         (* data.value *)
  reads : list (Z * nat)            (* the reads that reached the system: address, size *)
}.

Definition read_into_data (t : Target) (addr : Z) (size : nat) : Py.M rm_state unit :=
  stored <- Py.lift (ReadProcessMemory t addr size) ;;
  Py.modify (fun s =>
    {| data := match stored with
               | Some v => v
               | None => data s
               end;
       reads := reads s ++ [(addr, size)] |}).

(** [if isinstance(offset, str): offset = int(offset, 16)] *)
Definition offset_value (o : offset) : result Z :=
  match o with
  | OInt z => Return z
  | OStr s => int_base16 s
  end.

(** The body of [for offset in offsets:], threading [current_address]. *)
Fixpoint chain_loop (t : Target) (size : nat) (offsets : list offset)
         (current_address : Z) : Py.M rm_state Z :=
  match offsets with
  | [] => Py.ret current_address
  | o :: rest =>
      z <- Py.lift (offset_value o) ;;
      read_into_data t current_address size ;;;
      s <- Py.get ;;
      chain_loop t size rest (data s + z)
  end.

Definition truthy {A : Type} (offsets : option (list A)) : bool :=
  match offsets with
  | Some (_ :: _) => true
  | _ => false
  end.

Definition read_memory_m (t : Target) (address : Z) (offsets : option (list offset))
           (byte : bool) : Py.M rm_state (Z * Z) :=
  let size := sizeof_data byte in
  current_address <-
    (if truthy offsets then
       chain_loop t size (match offsets with Some l => l | None => [] end) address
     else
       read_into_data t address size ;;; Py.ret address) ;;
  s <- Py.get ;;
  Py.ret (current_address, data s).

(** A call starts from a fresh zeroed buffer; the outcome is the returned pair
    (or the exception) together with the reads the call issued. *)
Definition read_memory (t : Target) (address : Z) (offsets : option (list offset))
           (byte : bool) : result (Z * Z) * list (Z * nat) :=
  let '(r, s) := read_memory_m t address offsets byte {| data := 0; reads := [] |} in
  (r, reads s).

(** ** Strings: [casefold] and the [in] operator *)

Definition casefold_ascii (c : ascii) : ascii :=
  let n := nat_of_ascii c in
  if ((65 <=? n) && (n <=? 90))%nat then ascii_of_nat (n + 32) else c.

(** [str.casefold] on ASCII text, where it turns the letters A to Z into a to
    z and leaves the rest.  The examples run with it. *)
Fixpoint casefold_ascii_text (s : string) : string :=
  match s with
  | EmptyString => EmptyString
  | String c s' => String (casefold_ascii c) (casefold_ascii_text s')
  end.

(** [needle in hay] on strings: [needle] starts at some position of [hay]. *)
Fixpoint str_in (needle hay : string) : bool :=
  String.prefix needle hay ||
  match hay with
  | EmptyString => false
  | String _ hay' => str_in needle hay'
  end.

(** [x in names] on a list of strings. *)
Definition list_in (x : string) (names : list string) : bool :=
  existsb (String.eqb x) names.

(** ** The [Process] object *)

Record Process : Type := {
  process_id : Z;
  process_name : string;
  base_address : Z;
  window_name : string;
  last_window_handle : option Z;        (* __last_window_handle *)
  last_window_thread_id : option Z;     (* __last_window_thread_id *)
  window_handle_cache : option Z;       (* cached_property window_handle *)
  thread_id_cache : option Z            (* cached_property thread_id *)
}.

(** [Process.__init__] *)
Definition Process_init (process_id : Z) (process_name window_name : string)
           (base_address : Z) : Process :=
  {| process_id := process_id;
     process_name := process_name;
     base_address := base_address;
     window_name := window_name;
     last_window_handle := None;
     last_window_thread_id := None;
     window_handle_cache := None;
     thread_id_cache := None |}.

(** ** [Process.get_by_name]

    What the discovery calls give: the process ids, for each id a query handle
    unless opening fails, for a handle the base addresses of the loaded
    modules, and for a module its file path.  Each of the calls on a process
    can raise. *)

Record Discovery : Type := {
  EnumProcesses : list Z;
  OpenProcess : Z -> result Z;                    (* a query handle, or the call raises *)
  EnumProcessModules : Z -> result (list Z);      (* handle -> module base addresses *)
  GetModuleFileNameEx : Z -> Z -> result string   (* handle, base address -> file path *)
}.

(** The state of a discovery run: the handles closed so far. *)
Definition closed_handles : Type := list Z.

Definition CloseHandle (handle : Z) : Py.M closed_handles unit :=
  Py.modify (fun closed => closed ++ [handle]).

Definition not_found (process_name : string) : exn :=
  Exception (process_name ++ " could not be found.")%string.

(** ** [Process.kill_by_name]

    A [psutil.Process] as the loop uses it: what reading its name gives, and
    what killing it does.  Both can raise. *)

Record proc : Type := {
  pid : Z;
  name : result string;         (* proc.name() *)
  kill : result unit            (* proc.kill() *)
}.

Record kill_state : Type := {
  attempts : list Z;            (* pids on which kill() was called, in order *)
  debug_log : list string
}.

Definition quote : string := String (ascii_of_nat 34) EmptyString.

Definition call_kill (p : proc) : Py.M kill_state unit :=
  Py.modify (fun s => {| attempts := attempts s ++ [pid p]; debug_log := debug_log s |}) ;;;
  Py.lift (kill p).

Definition logging_debug (msg : string) : Py.M kill_state unit :=
  Py.modify (fun s => {| attempts := attempts s; debug_log := debug_log s ++ [msg] |}).

(** The [except] clauses around [proc.kill()].  The message is built with a
    second [proc.name()]; on Windows psutil keeps the name it has read once,
    so the call gives [current_name] again. *)
Definition kill_handler (current_name : string) (e : exn) : Py.M kill_state unit :=
  match e with
  | AccessDenied =>
      logging_debug ("Could not kill process " ++ quote ++ current_name ++ quote
                     ++ ". Ignoring.")%string
  | NoSuchProcess => Py.ret tt
  | _ => Py.throw e
  end.

(** ** The two searches by name, over [str.casefold] *)

Section Names.

Variable casefold : string -> string.

(** [for base_address in EnumProcessModules(handle): ... return cls(...)]:
    the base address of the first matching module, if any; a file-path lookup
    that raises ends the loop. *)
Fixpoint first_module (d : Discovery) (process_name : string) (handle : Z)
         (bases : list Z) : result (option Z) :=
  match bases with
  | [] => Return None
  | base :: rest =>
      match GetModuleFileNameEx d handle base with
      | Raise e => Raise e
      | Return current_name =>
          if str_in (casefold process_name) (casefold current_name)
          then Return (Some base)
          else first_module d process_name handle rest
      end
  end.

(** One round of the outer loop.  [Some p] is [return p]; [None] goes on to the
    next process id.  Only [OpenProcess] is inside the [try]; the module loop
    is in its [else] block, so that what it raises passes the [finally] clause
    and leaves [get_by_name]. *)
Definition visit_process (d : Discovery) (process_name window_name : string)
           (process_id : Z) : Py.M closed_handles (option Process) :=
  if process_id =? -1 then Py.ret None
  else
    match OpenProcess d process_id with
    | Raise _ => Py.ret None
    | Return handle =>
        Py.finally
          (bases <- Py.lift (EnumProcessModules d handle) ;;
           found <- Py.lift (first_module d process_name handle bases) ;;
           Py.ret (option_map (Process_init process_id process_name window_name) found))
          (if handle =? 0 then Py.ret tt else CloseHandle handle)
    end.

Fixpoint get_by_name_loop (d : Discovery) (process_name window_name : string)
         (pids : list Z) : Py.M closed_handles Process :=
  match pids with
  | [] => Py.throw (not_found process_name)
  | process_id :: rest =>
      r <- visit_process d process_name window_name process_id ;;
      match r with
      | Some p => Py.ret p
      | None => get_by_name_loop d process_name window_name rest
      end
  end.

Definition get_by_name (d : Discovery) (process_name window_name : string)
  : result Process * closed_handles :=
  get_by_name_loop d process_name window_name (EnumProcesses d) [].

(** [for proc in psutil.process_iter(): ...]; [proc.name()] is read outside
    the [try]. *)
Fixpoint kill_loop (names : list string) (procs : list proc) : Py.M kill_state unit :=
  match procs with
  | [] => Py.ret tt
  | p :: rest =>
      current_name <- Py.lift (name p) ;;
      (if list_in (casefold current_name) names
       then Py.try_except_else (call_kill p) (kill_handler current_name) Py.ret
       else Py.ret tt) ;;;
      kill_loop names rest
  end.

(** [process_iter] is the list of running processes the call iterates over. *)
Definition kill_by_name (names : list string) (process_iter : list proc)
  : result unit * kill_state :=
  kill_loop (map casefold names) process_iter {| attempts := []; debug_log := [] |}.

End Names.

(** ** The desktop: window lookup, foreground focus, thread input, key presses

    The calls of [win32gui], [win32api] and [win32process] that [focus] and
    [focus_back_to_last_window] make, as functions of the state [W] of the
    desktop.  [press_and_release] is [Manager.press_and_release] of
    [managers/loop_manager.py]; that module is a collaborator outside this
    file and its function is a parameter here, like the calls of the
    operating system. *)

Record Win32 (W : Type) : Type := {
  GetForegroundWindow : W -> Z;
  GetCurrentThreadId : W -> Z;
  FindWindow : string -> Py.M W Z;                    (* title -> window handle *)
  GetWindowThreadProcessId : Z -> Py.M W (Z * Z);     (* handle -> (thread id, process id) *)
  AttachThreadInput : Z -> Z -> bool -> Py.M W unit;
  SetForegroundWindow : Z -> Py.M W unit;
  press_and_release : string -> bool -> Py.M W unit   (* Manager.press_and_release(key, precise) *)
}.

Arguments GetForegroundWindow {W} _ _.
Arguments GetCurrentThreadId {W} _ _.
Arguments FindWindow {W} _ _ _.
Arguments GetWindowThreadProcessId {W} _ _ _.
Arguments AttachThreadInput {W} _ _ _ _ _.
Arguments SetForegroundWindow {W} _ _ _.
Arguments press_and_release {W} _ _ _ _.

(** The calls a run makes, in order, whether they succeed or raise. *)
Inductive event : Type :=
| EvFindWindow (title : string)
| EvGetWindowThread (hwnd : Z)
| EvPress (key : string) (precise : bool)
| EvAttach (id_attach id_attach_to : Z) (attach : bool)
| EvSetForeground (hwnd : Z)
| EvSleep (milliseconds : Z).

Record fstate (W : Type) : Type := {
  self : Process;
  world : W;
  events : list event
}.

Arguments self {W} _.
Arguments world {W} _.
Arguments events {W} _.

Section Focus.

Variable W : Type.
Variable os : Win32 W.

Definition F (A : Type) : Type := Py.M (fstate W) A.

Definition emit (e : event) : F unit :=
  Py.modify (fun s => {| self := self s; world := world s; events := events s ++ [e] |}).

(** Runs an operating-system call on the world inside the object's state. *)
Definition os_call {A : Type} (e : event) (call : Py.M W A) : F A :=
  emit e ;;;
  (fun s => let '(r, w') := call (world s) in
            (r, {| self := self s; world := w'; events := events s |})).

Definition update_self (f : Process -> Process) : F unit :=
  Py.modify (fun s => {| self := f (self s); world := world s; events := events s |}).

Definition set_last_window_handle (h : Z) (p : Process) : Process :=
  {| process_id := process_id p; process_name := process_name p;
     base_address := base_address p; window_name := window_name p;
     last_window_handle := Some h;
     last_window_thread_id := last_window_thread_id p;
     window_handle_cache := window_handle_cache p;
     thread_id_cache := thread_id_cache p |}.

Definition set_last_window_thread_id (t : Z) (p : Process) : Process :=
  {| process_id := process_id p; process_name := process_name p;
     base_address := base_address p; window_name := window_name p;
     last_window_handle := last_window_handle p;
     last_window_thread_id := Some t;
     window_handle_cache := window_handle_cache p;
     thread_id_cache := thread_id_cache p |}.

Definition set_window_handle_cache (c : option Z) (p : Process) : Process :=
  {| process_id := process_id p; process_name := process_name p;
     base_address := base_address p; window_name := window_name p;
     last_window_handle := last_window_handle p;
     last_window_thread_id := last_window_thread_id p;
     window_handle_cache := c;
     thread_id_cache := thread_id_cache p |}.

Definition set_thread_id_cache (c : option Z) (p : Process) : Process :=
  {| process_id := process_id p; process_name := process_name p;
     base_address := base_address p; window_name := window_name p;
     last_window_handle := last_window_handle p;
     last_window_thread_id := last_window_thread_id p;
     window_handle_cache := window_handle_cache p;
     thread_id_cache := c |}.

(** [self.window_handle], a [functools.cached_property]. *)
Definition window_handle : F Z :=
  s <- Py.get ;;
  match window_handle_cache (self s) with
  | Some h => Py.ret h
  | None =>
      h <- os_call (EvFindWindow (window_name (self s)))
                   (FindWindow os (window_name (self s))) ;;
      update_self (set_window_handle_cache (Some h)) ;;;
      Py.ret h
  end.

(** [self.thread_id], a [functools.cached_property]. *)
Definition thread_id : F Z :=
  s <- Py.get ;;
  match thread_id_cache (self s) with
  | Some t => Py.ret t
  | None =>
      h <- window_handle ;;
      r <- os_call (EvGetWindowThread h) (GetWindowThreadProcessId os h) ;;
      update_self (set_thread_id_cache (Some (fst r))) ;;;
      Py.ret (fst r)
  end.

(** [delattr(self, 'window_handle')]: removes the cached value from the
    instance; raises when there is none. *)
Definition delattr_window_handle : F unit :=
  s <- Py.get ;;
  match window_handle_cache (self s) with
  | Some _ => update_self (set_window_handle_cache None)
  | None => Py.throw (AttributeError "window_handle")
  end.

(** A win32 call refuses [None] where it wants an integer. *)
Definition as_int (v : option Z) : F Z :=
  match v with
  | Some z => Py.ret z
  | None => Py.throw (TypeError "an integer is required")
  end.

(** The body of the [try] in [focus]. *)
Definition focus_attempt : F unit :=
  os_call (EvPress "alt" true) (press_and_release os "alt" true) ;;;
  s <- Py.get ;;
  tid <- thread_id ;;
  last_tid <- as_int (last_window_thread_id (self s)) ;;
  os_call (EvAttach last_tid tid true) (AttachThreadInput os last_tid tid true) ;;;
  h <- window_handle ;;
  os_call (EvSetForeground h) (SetForegroundWindow os h).

(** [raise exc] *)
Definition raise_exc (exc : option exn) : F unit :=
  match exc with
  | Some e => Py.throw e
  | None => Py.throw (TypeError "exceptions must derive from BaseException")
  end.

(** [for _ in range(n): try: ... except Exception as e: ... else: return]
    followed by [raise exc]. *)
Fixpoint focus_loop (n : nat) (exc : option exn) : F unit :=
  match n with
  | O => raise_exc exc
  | S n' =>
      Py.try_except_else focus_attempt
        (fun e =>
           delattr_window_handle ;;;
           emit (EvSleep 100) ;;;
           focus_loop n' (Some e))
        Py.ret
  end.

Definition focus : F unit :=
  s <- Py.get ;;
  let fg := GetForegroundWindow os (world s) in
  update_self (set_last_window_handle fg) ;;;
  update_self (set_last_window_thread_id (GetCurrentThreadId os (world s))) ;;;
  h <- window_handle ;;
  if negb (fg =? h) then focus_loop 2 None else Py.ret tt.

(** [x != h] where [x] may be [None]. *)
Definition differs (x : option Z) (h : Z) : bool :=
  match x with
  | Some v => negb (v =? h)
  | None => true
  end.

Definition focus_back_to_last_window : F unit :=
  s <- Py.get ;;
  h <- window_handle ;;
  if differs (last_window_handle (self s)) h then
    os_call (EvPress "alt" false) (press_and_release os "alt" false) ;;;
    tid <- thread_id ;;
    last_tid <- as_int (last_window_thread_id (self s)) ;;
    os_call (EvAttach last_tid tid false) (AttachThreadInput os last_tid tid false) ;;;
    Py.try_except_else
      (last <- as_int (last_window_handle (self s)) ;;
       os_call (EvSetForeground last) (SetForegroundWindow os last))
      (fun _ => Py.ret tt)
      Py.ret
  else Py.ret tt.

End Focus.

Arguments focus {W} os _.
Arguments focus_back_to_last_window {W} os _.
Arguments focus_attempt {W} os _.
Arguments focus_loop {W} os n exc _.
Arguments window_handle {W} os _.
Arguments thread_id {W} os _.

(** ** A scripted desktop, to run the model on

    Every fallible call pops the head of its script: [false] makes the call
    raise, [true] (and an exhausted script) lets it succeed. *)

Record Desk : Type := {
  foreground : Z;
  current_thread : Z;
  windows : list (string * (Z * Z));    (* title, (handle, owning thread) *)
  press_script : list bool;
  attach_script : list bool;
  setfg_script : list bool
}.

Definition pop (script : list bool) : bool * list bool :=
  match script with
  | [] => (true, [])
  | b :: rest => (b, rest)
  end.

Fixpoint find_title (title : string) (ws : list (string * (Z * Z))) : Z :=
  match ws with
  | [] => 0
  | (t, (h, _)) :: rest => if String.eqb t title then h else find_title title rest
  end.

Fixpoint owner_of (hwnd : Z) (ws : list (string * (Z * Z))) : Z :=
  match ws with
  | [] => 0
  | (_, (h, t)) :: rest => if h =? hwnd then t else owner_of hwnd rest
  end.

Definition desk_press (d : Desk) : result unit * Desk :=
  let '(ok, rest) := pop (press_script d) in
  (if ok then Return tt else Raise (OSError 1),
   {| foreground := foreground d; current_thread := current_thread d;
      windows := windows d; press_script := rest;
      attach_script := attach_script d; setfg_script := setfg_script d |}).

Definition desk_attach (d : Desk) : result unit * Desk :=
  let '(ok, rest) := pop (attach_script d) in
  (if ok then Return tt else Raise (OSError 87),
   {| foreground := foreground d; current_thread := current_thread d;
      windows := windows d; press_script := press_script d;
      attach_script := rest; setfg_script := setfg_script d |}).

Definition desk_setfg (hwnd : Z) (d : Desk) : result unit * Desk :=
  let '(ok, rest) := pop (setfg_script d) in
  (if ok then Return tt else Raise (OSError 0),
   {| foreground := if ok then hwnd else foreground d;
      current_thread := current_thread d;
      windows := windows d; press_script := press_script d;
      attach_script := attach_script d; setfg_script := rest |}).

Definition desk : Win32 Desk :=
  {| GetForegroundWindow := foreground;
     GetCurrentThreadId := current_thread;
     FindWindow := fun title d => (Return (find_title title (windows d)), d);
     GetWindowThreadProcessId := fun hwnd d => (Return (owner_of hwnd (windows d), 0), d);
     AttachThreadInput := fun _ _ _ => desk_attach;
     SetForegroundWindow := desk_setfg;
     press_and_release := fun _ _ => desk_press |}.

Definition game : Process := Process_init 4242 "metin2client" "Metin2" 4194304.

Definition start (d : Desk) : fstate Desk := {| self := game; world := d; events := [] |}.

Definition two_windows : list (string * (Z * Z)) :=
  [("Editor", (100, 7)); ("Metin2", (200, 9))].

(** * Specification-side definitions *)

(** ** Pointer chains *)

(** [data.value] after a read that reached the system while the buffer held
    [before]. *)
Definition data_after (t : Target) (size : nat) (before addr : Z) : Z :=
  match kernel_read t addr size with
  | Some v => v
  | None => before
  end.

(** All offsets of a chain as integers, when every string is a hexadecimal
    literal. *)
Fixpoint chain_values (offsets : list offset) : option (list Z) :=
  match offsets with
  | [] => Some []
  | o :: rest =>
      match offset_value o, chain_values rest with
      | Return z, Some zs => Some (z :: zs)
      | _, _ => None
      end
  end.



(** Two offsets of the same numeric magnitude, whatever their form. *)
Definition same_offset (o1 o2 : offset) : Prop :=
  exists z, offset_value o1 = Return z /\ offset_value o2 = Return z.

(** A resolution in which a failed read is not noticed: the buffer keeps what
    it held before, and that is taken as the value read.  Only an address that
    does not convert stops it. *)
Fixpoint resolve_unchecked (t : Target) (size : nat) (zs : list Z)
         (current before : Z) : result (Z * Z) :=
  match zs with
  | [] => Return (current, before)
  | z :: zs' =>
      if ctypes_int current then
        let v := data_after t size before current in
        resolve_unchecked t size zs' (v + z) v
      else Raise (ArgumentError 2)
  end.

(** Whether one of the reads a call issued failed. *)
Definition some_read_failed (t : Target) (issued_reads : list (Z * nat)) : bool :=
  existsb (fun rd => match kernel_read t (fst rd) (snd rd) with
                     | Some _ => false
                     | None => true
                     end) issued_reads.

(** All characters of the text are ASCII. *)
Fixpoint is_ascii_text (s : string) : bool :=
  match s with
  | EmptyString => true
  | String c s' => (nat_of_ascii c <? 128)%nat && is_ascii_text s'
  end.

(** ** Sample targets *)

Definition byte_of (v : Z) : byte :=
  match Byte.of_N (Z.to_N (v mod 256)) with
  | Some b => b
  | None => x00
  end.

(** The four bytes of a 32-bit word stored at [addr], little end first. *)
Definition word_at (addr v : Z) : list (Z * byte) :=
  [(addr, byte_of v); (addr + 1, byte_of (v / 256));
   (addr + 2, byte_of (v / 65536)); (addr + 3, byte_of (v / 16777216))].

Fixpoint lookup_cell (addr : Z) (cells : list (Z * byte)) : option byte :=
  match cells with
  | [] => None
  | (a, b) :: rest => if a =? addr then Some b else lookup_cell addr rest
  end.

Definition ram (cells : list (Z * byte)) : Target :=
  {| handle_valid := true; byte_at := fun addr => lookup_cell addr cells |}.

(** A pointer at 0x400010 to 0x500000, and at 0x500018 the word 0x600000. *)
Definition two_step_ram : Target :=
  ram (word_at 4194320 5242880 ++ word_at 5242904 6291456).


(** A target none of whose pages is mapped. *)
Definition unmapped : Target :=
  {| handle_valid := true; byte_at := fun _ => None |}.

(** ** Process discovery *)

(** What the search meets, in enumeration order over the openable processes:
    a module with its process id, base address and file path, or a module
    call (the enumeration of a process's modules, the lookup of a file path)
    that raises. *)
Inductive entry : Type :=
| Module (process_id base : Z) (path : string)
| Broken (e : exn).

Definition module_entry (d : Discovery) (process_id handle base : Z) : entry :=
  match GetModuleFileNameEx d handle base with
  | Return path => Module process_id base path
  | Raise e => Broken e
  end.

Definition modules_of (d : Discovery) (process_id : Z) : list entry :=
  match OpenProcess d process_id with
  | Return handle =>
      match EnumProcessModules d handle with
      | Return bases => map (module_entry d process_id handle) bases
      | Raise e => [Broken e]
      end
  | Raise _ => []
  end.

Definition enumeration (d : Discovery) : list entry :=
  flat_map (modules_of d) (EnumProcesses d).

(** The file path contains the search string, letter case aside. *)
Definition path_matches (casefold : string -> string) (process_name path : string) : bool :=
  str_in (casefold process_name) (casefold path).

(** The entry is a module whose path matches. *)
Definition matches (casefold : string -> string) (process_name : string) (x : entry) : bool :=
  match x with
  | Module _ _ path => path_matches casefold process_name path
  | Broken _ => false
  end.

(** The entry ends the search: a module whose path matches, or a module call
    that raises. *)
Definition decides (casefold : string -> string) (process_name : string) (x : entry) : bool :=
  match x with
  | Module _ _ path => path_matches casefold process_name path
  | Broken _ => true
  end.

(** The handles of the processes among [pids] that could be opened. *)
Definition handles_of (d : Discovery) (pids : list Z) : list Z :=
  flat_map (fun process_id =>
              match OpenProcess d process_id with
              | Return handle => if handle =? 0 then [] else [handle]
              | Raise _ => []
              end) pids.

Definition opened_handles (d : Discovery) : list Z := handles_of d (EnumProcesses d).

(** A machine on which process 8 cannot be opened, process 12 runs a browser
    and process 16 the game. *)
Definition sample_machine : Discovery :=
  {| EnumProcesses := [0; 8; 12; 16];
     OpenProcess := fun process_id =>
       if (process_id =? 12) || (process_id =? 16)
       then Return (1000 + process_id) else Raise (OSError 5);
     EnumProcessModules := fun handle =>
       Return (if handle =? 1012 then [65536; 131072]
               else if handle =? 1016 then [4194304; 1879048192] else []);
     GetModuleFileNameEx := fun handle base =>
       Return (if handle =? 1012 then
                 (if base =? 65536 then "C:\Apps\browser.exe" else "C:\Windows\ntdll.dll")
               else
                 (if base =? 4194304 then "C:\Game\game.exe" else "C:\Windows\ntdll.dll")) |}.

(** The same machine, except that the modules of process 12, which opens,
    cannot be enumerated. *)
Definition guarded_machine : Discovery :=
  {| EnumProcesses := EnumProcesses sample_machine;
     OpenProcess := OpenProcess sample_machine;
     EnumProcessModules := fun handle =>
       if handle =? 1012 then Raise (OSError 299)
       else EnumProcessModules sample_machine handle;
     GetModuleFileNameEx := GetModuleFileNameEx sample_machine |}.

(** ** Bulk termination *)

(** The process is one of those asked for: its name can be read and, letter
    case aside, is in the list. *)
Definition targeted (casefold : string -> string) (names : list string) (p : proc) : bool :=
  match name p with
  | Return current_name => list_in (casefold current_name) (map casefold names)
  | Raise _ => false
  end.

(** Termination succeeded, or failed with access-denied or because the process
    was already gone. *)
Definition kill_tolerated (r : result unit) : bool :=
  match r with
  | Return _ => true
  | Raise AccessDenied => true
  | Raise NoSuchProcess => true
  | Raise _ => false
  end.

(** The loop gets past the process: its name can be read, and if it is asked
    for, its termination is tolerated. *)
Definition passes (casefold : string -> string) (names : list string) (p : proc) : bool :=
  negb (raises (name p)) &&
  (negb (targeted casefold names p) || kill_tolerated (kill p)).

(** What stops the loop at a process that does not pass: the error of reading
    its name, or else the error of its termination. *)
Definition stopping_error (p : proc) : result unit :=
  match name p with
  | Raise e => Raise e
  | Return _ => kill p
  end.

Definition sample_processes : list proc :=
  [ {| pid := 4; name := Return "System"; kill := Raise AccessDenied |};
    {| pid := 300; name := Return "Metin2Client.exe"; kill := Raise NoSuchProcess |};
    {| pid := 412; name := Return "explorer.exe"; kill := Return tt |};
    {| pid := 500; name := Return "metin2client.EXE"; kill := Raise AccessDenied |};
    {| pid := 640; name := Return "Patcher.exe"; kill := Return tt |} ].

(** A termination that fails in another way. *)
Definition stubborn_processes : list proc :=
  [ {| pid := 300; name := Return "metin2client.exe"; kill := Raise (OSError 31) |};
    {| pid := 500; name := Return "metin2client.exe"; kill := Return tt |} ].

(** A process that is gone when its name is read. *)
Definition vanishing_processes : list proc :=
  [ {| pid := 300; name := Raise NoSuchProcess; kill := Return tt |};
    {| pid := 500; name := Return "metin2client.exe"; kill := Return tt |} ].

(** ** Focus *)

(** The calls that act on the desktop's focus: key presses, thread-input
    attachment and foreground changes. *)
Definition is_focus_effect (e : event) : bool :=
  match e with
  | EvPress _ _ | EvAttach _ _ _ | EvSetForeground _ => true
  | EvFindWindow _ | EvGetWindowThread _ | EvSleep _ => false
  end.

Definition focus_effects (evs : list event) : list event := filter is_focus_effect evs.

(** The handle [self.window_handle] evaluates to: the cached one, or else the
    one [FindWindow] gives for the title. *)
Definition target_window {W : Type} (os : Win32 W) (s : fstate W) : result Z :=
  match window_handle_cache (self s) with
  | Some h => Return h
  | None => fst (FindWindow os (window_name (self s)) (world s))
  end.

(** The same desktop with another behaviour of [SetForegroundWindow]. *)
Definition with_SetForegroundWindow {W : Type} (os : Win32 W)
           (f : Z -> Py.M W unit) : Win32 W :=
  {| GetForegroundWindow := GetForegroundWindow os;
     GetCurrentThreadId := GetCurrentThreadId os;
     FindWindow := FindWindow os;
     GetWindowThreadProcessId := GetWindowThreadProcessId os;
     AttachThreadInput := AttachThreadInput os;
     SetForegroundWindow := f;
     press_and_release := press_and_release os |}.

(** The key presses among the events: [focus] sends one per attempt. *)
Definition is_press (e : event) : bool :=
  match e with
  | EvPress _ _ => true
  | _ => false
  end.

(** The editor has the focus and the foreground cannot be changed. *)
Definition foreground_locked : Desk :=
  {| foreground := 100; current_thread := 1; windows := two_windows;
     press_script := []; attach_script := []; setfg_script := [false; false] |}.

(** An event of a restore that uses the snapshot [(h0, t0)]: the foreground is
    set to [h0] and the detach names [t0]. *)
Definition uses_snapshot (h0 t0 : Z) (e : event) : bool :=
  match e with
  | EvSetForeground h => h =? h0
  | EvAttach t _ attach => (t =? t0) && negb attach
  | _ => true
  end.

(** The editor has the focus; the game window exists. *)
Definition editor_in_front : Desk :=
  {| foreground := 100; current_thread := 1; windows := two_windows;
     press_script := []; attach_script := []; setfg_script := [] |}.

(** The state in which [focus] has just brought the game to the front. *)
Definition game_in_front : fstate Desk := snd (focus desk (start editor_in_front)).

(** The editor has the focus and thread input cannot be attached. *)
Definition attach_refused : Desk :=
  {| foreground := 100; current_thread := 1; windows := two_windows;
     press_script := []; attach_script := [false; false]; setfg_script := [] |}.

(** The object as a successful [focus] leaves it, on a desktop where the game
    is in front and the restore meets the given scripts. *)
Definition restore_state (press attach setfg : list bool) : fstate Desk :=
  {| self := self game_in_front;
     world := {| foreground := 200; current_thread := 1; windows := two_windows;
                 press_script := press; attach_script := attach;
                 setfg_script := setfg |};
     events := [] |}.

(** A desktop on which only [SetForegroundWindow] can fail. *)
Definition calm_desk : Win32 Desk :=
  {| GetForegroundWindow := foreground;
     GetCurrentThreadId := current_thread;
     FindWindow := fun title d => (Return (find_title title (windows d)), d);
     GetWindowThreadProcessId := fun hwnd d => (Return (owner_of hwnd (windows d), 0), d);
     AttachThreadInput := fun _ _ _ d => (Return tt, d);
     SetForegroundWindow := desk_setfg;
     press_and_release := fun _ _ d => (Return tt, d) |}.

(** * The rest of the class and further specification-side definitions *)

(** ** The read handle: [process_handle], [read_memory] through it, [__del__]

    [kernel32.OpenProcess] through [ctypes] returns a handle, or zero when the
    process cannot be opened; it does not raise.  The memory a handle gives
    access to is that of the process it was opened for. *)

Record Kernel : Type := {
  OpenProcess_vm_read : Z -> Z;           (* process id -> handle, 0 on failure *)
  memory_of : Z -> Z -> option byte       (* handle, address -> mapped byte *)
}.

(** What [ReadProcessMemory] sees through a handle. *)
Definition target_of (k : Kernel) (handle : Z) : Target :=
  {| handle_valid := negb (handle =? 0); byte_at := memory_of k handle |}.

Record handle_state : Type := {
  process_handle_cache : option Z;        (* cached_property process_handle *)
  open_calls : list Z;                    (* process ids passed to OpenProcess *)
  close_calls : list Z                    (* handles passed to CloseHandle *)
}.

(** A [Process] right after [__init__]. *)
Definition fresh_handle_state : handle_state :=
  {| process_handle_cache := None; open_calls := []; close_calls := [] |}.

(** The state of a call of [read_memory] on the object: the object's handle
    fields and the call's buffer. *)
Record call_state : Type := {
  object : handle_state;
  buffer : rm_state
}.

(** [self.process_handle], a [functools.cached_property]. *)
Definition process_handle (k : Kernel) (process_id : Z) : Py.M call_state Z :=
  s <- Py.get ;;
  match process_handle_cache (object s) with
  | Some h => Py.ret h
  | None =>
      let h := OpenProcess_vm_read k process_id in
      Py.modify (fun s =>
        {| object := {| process_handle_cache := Some h;
                        open_calls := open_calls (object s) ++ [process_id];
                        close_calls := close_calls (object s) |};
           buffer := buffer s |}) ;;;
      Py.ret h
  end.

(** [ReadProcessMemory(self.process_handle, addr, byref(data), sizeof(data), ...)] *)
Definition read_through_handle (k : Kernel) (process_id addr : Z) (size : nat)
  : Py.M call_state unit :=
  h <- process_handle k process_id ;;
  fun s =>
    let '(r, b) := read_into_data (target_of k h) addr size (buffer s) in
    (r, {| object := object s; buffer := b |}).

Fixpoint chain_loop_self (k : Kernel) (process_id : Z) (size : nat)
         (offsets : list offset) (current_address : Z) : Py.M call_state Z :=
  match offsets with
  | [] => Py.ret current_address
  | o :: rest =>
      z <- Py.lift (offset_value o) ;;
      read_through_handle k process_id current_address size ;;;
      s <- Py.get ;;
      chain_loop_self k process_id size rest (data (buffer s) + z)
  end.

Definition read_memory_self_m (k : Kernel) (process_id address : Z)
           (offsets : option (list offset)) (byte : bool) : Py.M call_state (Z * Z) :=
  let size := sizeof_data byte in
  current_address <-
    (if truthy offsets then
       chain_loop_self k process_id size
                       (match offsets with Some l => l | None => [] end) address
     else
       read_through_handle k process_id address size ;;; Py.ret address) ;;
  s <- Py.get ;;
  Py.ret (current_address, data (buffer s)).

(** [self.read_memory(address, offsets, byte)] on an object in state [o]: the
    outcome, the reads issued, and the object afterwards. *)
Definition read_memory_self (k : Kernel) (process_id address : Z)
           (offsets : option (list offset)) (byte : bool) (o : handle_state)
  : result (Z * Z) * list (Z * nat) * handle_state :=
  let '(r, s) := read_memory_self_m k process_id address offsets byte
                   {| object := o; buffer := {| data := 0; reads := [] |} |} in
  (r, reads (buffer s), object s).

(** [Process.__del__] *)
Definition Process_del (k : Kernel) (process_id : Z) (o : handle_state) : handle_state :=
  let '(_, s) :=
    (h <- process_handle k process_id ;;
     if negb (h =? 0) then
       h' <- process_handle k process_id ;;
       Py.modify (fun s =>
         {| object := {| process_handle_cache := process_handle_cache (object s);
                         open_calls := open_calls (object s);
                         close_calls := close_calls (object s) ++ [h'] |};
            buffer := buffer s |})
     else Py.ret tt)
      {| object := o; buffer := {| data := 0; reads := [] |} |} in
  object s.

(** A call of [read_memory]: address, offsets, byte flag. *)
Definition read_call : Type := Z * option (list offset) * bool.

(** The life of an object: the calls of [read_memory] made on it, whose
    results and exceptions stay with the callers, and then [__del__]. *)
Fixpoint after_calls (k : Kernel) (process_id : Z) (calls : list read_call)
         (o : handle_state) : handle_state :=
  match calls with
  | [] => o
  | (address, offsets, byte) :: rest =>
      after_calls k process_id rest
                  (snd (read_memory_self k process_id address offsets byte o))
  end.

Definition whole_life (k : Kernel) (process_id : Z) (calls : list read_call) : handle_state :=
  Process_del k process_id (after_calls k process_id calls fresh_handle_state).

(** The handle the object holds or, before the first use, will obtain. *)
Definition handle_in (k : Kernel) (process_id : Z) (o : handle_state) : Z :=
  match process_handle_cache o with
  | Some h => h
  | None => OpenProcess_vm_read k process_id
  end.

(** The object once [process_handle] has been evaluated. *)
Definition touched (k : Kernel) (process_id : Z) (o : handle_state) : handle_state :=
  {| process_handle_cache := Some (handle_in k process_id o);
     open_calls := open_calls o ++ match process_handle_cache o with
                                   | Some _ => []
                                   | None => [process_id]
                                   end;
     close_calls := close_calls o |}.

(** Whether a call with these offsets comes to a read call at all, and so
    evaluates [self.process_handle]: a chain does unless its first offset is
    malformed; a single read always does. *)
Definition issues_read (offsets : list offset) : bool :=
  match offsets with
  | [] => false
  | o :: _ => negb (raises (offset_value o))
  end.

Definition call_issues_read (offsets : option (list offset)) : bool :=
  if truthy offsets
  then issues_read (match offsets with Some l => l | None => [] end)
  else true.

(** A target whose handle is not valid, whatever its memory holds. *)
Definition closed_target : Target :=
  {| handle_valid := false; byte_at := byte_at two_step_ram |}.

(** A kernel that hands out handle 64 for process 4242, whose memory is the
    sample memory, and opens nothing else. *)
Definition sample_kernel : Kernel :=
  {| OpenProcess_vm_read := fun process_id => if process_id =? 4242 then 64 else 0;
     memory_of := fun handle => if handle =? 64 then byte_at two_step_ram else fun _ => None |}.

(** The process ids the loop of [get_by_name] does not skip. *)
Definition real_pids (pids : list Z) : list Z :=
  filter (fun process_id => negb (process_id =? -1)) pids.

(** One round of the loop of [kill_by_name]. *)
Definition kill_step (casefold : string -> string) (names : list string) (p : proc)
  : Py.M kill_state unit :=
  current_name <- Py.lift (name p) ;;
  if list_in (casefold current_name) names
  then Py.try_except_else (call_kill p) (kill_handler current_name) Py.ret
  else Py.ret tt.

(** No call of the desktop raises. *)
Definition never_raises {W : Type} (os : Win32 W) : Prop :=
  (forall title w, raises (fst (FindWindow os title w)) = false) /\
  (forall h w, raises (fst (GetWindowThreadProcessId os h w)) = false) /\
  (forall key precise w, raises (fst (press_and_release os key precise w)) = false) /\
  (forall a b c w, raises (fst (AttachThreadInput os a b c w)) = false) /\
  (forall h w, raises (fst (SetForegroundWindow os h w)) = false).

(** A desktop on which nothing fails. *)
Definition quiet_desk : Win32 Desk :=
  {| GetForegroundWindow := foreground;
     GetCurrentThreadId := current_thread;
     FindWindow := fun title d => (Return (find_title title (windows d)), d);
     GetWindowThreadProcessId := fun hwnd d => (Return (owner_of hwnd (windows d), 0), d);
     AttachThreadInput := fun _ _ _ d => (Return tt, d);
     SetForegroundWindow := fun hwnd d =>
       (Return tt,
        {| foreground := hwnd; current_thread := current_thread d;
           windows := windows d; press_script := press_script d;
           attach_script := attach_script d; setfg_script := setfg_script d |});
     press_and_release := fun _ _ d => (Return tt, d) |}.

(** ** [char2key], [_prepare_lparam], [send_input] *)

(** The keyboard and message calls of [win32api] that [send_input] makes, as
    functions of the state of the desktop. *)
Record Keyboard (W : Type) : Type := {
  VkKeyScan : string -> Py.M W Z;
  MapVirtualKey : Z -> Z -> Py.M W Z;
  SendMessage : Z -> Z -> Z -> Z -> Py.M W unit;
  PostMessage : Z -> Z -> Z -> Z -> Py.M W unit
}.

Arguments VkKeyScan {W} _ _ _.
Arguments MapVirtualKey {W} _ _ _ _.
Arguments SendMessage {W} _ _ _ _ _ _.
Arguments PostMessage {W} _ _ _ _ _ _.

(** [win32con.WM_KEYDOWN] and [win32con.WM_KEYUP] *)
Definition WM_KEYDOWN : Z := 256.
Definition WM_KEYUP : Z := 257.

(** What [send_input] does besides the calls [focus] logs: the window
    messages it delivers, and its waits. *)
Inductive delivery : Type :=
| Sent (hwnd msg wparam lparam : Z)       (* win32api.SendMessage *)
| Posted (hwnd msg wparam lparam : Z)     (* win32api.PostMessage *)
| SleepBetweenPresses                     (* time.sleep(sleep_between_presses) *)
| SleepBetweenKeys.                       (* time.sleep(sleep_between_keys) *)

Record istate (W : Type) : Type := {
  desktop : fstate W;
  deliveries : list delivery
}.

Arguments desktop {W} _.
Arguments deliveries {W} _.

(** [key.split('+')]: the pieces between the plus signs; [piece] is the piece
    being read. *)
Fixpoint split_plus_from (piece : string) (s : string) : list string :=
  match s with
  | EmptyString => [piece]
  | String c s' =>
      if Ascii.eqb c "+"%char then piece :: split_plus_from EmptyString s'
      else split_plus_from (piece ++ String c EmptyString)%string s'
  end.

Definition split_plus (s : string) : list string := split_plus_from EmptyString s.

Section SendInput.

Variable W : Type.
Variable os : Win32 W.
Variable kb : Keyboard W.

Definition Input (A : Type) : Type := Py.M (istate W) A.

(** Runs a method of the object ([focus], [window_handle], ...). *)
Definition on_desktop {A : Type} (m : Py.M (fstate W) A) : Input A :=
  fun s => let '(r, d) := m (desktop s) in
           (r, {| desktop := d; deliveries := deliveries s |}).

(** Runs a call of the keyboard on the world. *)
Definition kb_call {A : Type} (call : Py.M W A) : Input A :=
  fun s => let '(r, w') := call (world (desktop s)) in
           (r, {| desktop := {| self := self (desktop s); world := w';
                                events := events (desktop s) |};
                  deliveries := deliveries s |}).

Definition deliver (d : delivery) : Input unit :=
  Py.modify (fun s => {| desktop := desktop s; deliveries := deliveries s ++ [d] |}).

(** [Process.char2key] *)
Definition char2key (c : string) : Input Z :=
  result <- kb_call (VkKeyScan kb c) ;;
  let vk_key := Z.land result 255 in
  Py.ret vk_key.

(** [Process._prepare_lparam] *)
Definition _prepare_lparam (message vk : Z) : Input Z :=
  scan <- kb_call (MapVirtualKey kb vk 0) ;;
  let l_param := Z.shiftl scan 16 in
  Py.ret (if message =? WM_KEYDOWN then Z.lor l_param 0 else Z.lor l_param 1342177281).

(** The [else] branch of the loop: the key goes to the window itself. *)
Definition send_to_window (key : string) : Input unit :=
  let _keys := split_plus key in
  vk0 <- char2key (hd EmptyString _keys) ;;
  let vk := if list_in "ctrl" _keys then Z.lor 512 vk0 else vk0 in
  h <- on_desktop (window_handle os) ;;
  lp <- _prepare_lparam WM_KEYDOWN vk ;;
  deliver (Sent h WM_KEYDOWN vk lp) ;;;
  kb_call (SendMessage kb h WM_KEYDOWN vk lp) ;;;
  deliver SleepBetweenPresses ;;;
  h' <- on_desktop (window_handle os) ;;
  lp' <- _prepare_lparam WM_KEYUP vk ;;
  deliver (Posted h' WM_KEYUP vk lp') ;;;
  kb_call (PostMessage kb h' WM_KEYUP vk lp').

(** [Manager.press_and_release(key, sleep_between=..., precise=True)] *)
Definition press_key (key : string) : Input unit :=
  on_desktop (os_call W (EvPress key true) (press_and_release os key true)).

(** [for key in keys: ...] *)
Fixpoint send_keys (send_to_process : bool) (keys : list string) : Input unit :=
  match keys with
  | [] => Py.ret tt
  | key :: rest =>
      (if negb send_to_process then press_key key else send_to_window key) ;;;
      deliver SleepBetweenKeys ;;;
      send_keys send_to_process rest
  end.

(** [if focus is True: self.focus(); time.sleep(sleep_between_presses)] *)
Definition focus_first (focus_flag : bool) : Input unit :=
  if focus_flag then on_desktop (focus os) ;;; deliver SleepBetweenPresses
  else Py.ret tt.

(** [if focus_back is True: self.focus_back_to_last_window()] *)
Definition focus_last (focus_back_flag : bool) : Input unit :=
  if focus_back_flag then on_desktop (focus_back_to_last_window os) else Py.ret tt.

(** [keys] are the positional arguments; [focus_flag] and [focus_back_flag]
    are the keyword arguments [focus] and [focus_back]. *)
Definition send_input (keys : list string)
           (focus_flag focus_back_flag send_to_process : bool) : Input unit :=
  focus_first focus_flag ;;;
  send_keys send_to_process keys ;;;
  focus_last focus_back_flag.

End SendInput.

Arguments char2key {W} kb c _.
Arguments _prepare_lparam {W} kb message vk _.
Arguments send_to_window {W} os kb key _.
Arguments press_key {W} os key _.
Arguments send_keys {W} os kb send_to_process keys _.
Arguments focus_first {W} os focus_flag _.
Arguments focus_last {W} os focus_back_flag _.
Arguments send_input {W} os kb keys focus_flag focus_back_flag send_to_process _.

(** The deliveries of one key sent to the window. *)
Definition key_deliveries (p : Z * Z * Z * Z) : list delivery :=
  let '(h, vk, lp_down, lp_up) := p in
  [Sent h WM_KEYDOWN vk lp_down; SleepBetweenPresses;
   Posted h WM_KEYUP vk lp_up; SleepBetweenKeys].

(** The layout of a key message's parameter word: the repeat count in the low
    sixteen bits, the scan code in the next eight. *)
Definition repeat_count (lparam : Z) : Z := Z.land lparam 65535.
Definition scan_code (lparam : Z) : Z := Z.land (Z.shiftr lparam 16) 255.

(** The facts about the two parameter words built from the scan code [sc]. *)
Definition lparam_layout_ok (sc : Z) : bool :=
  let down := Z.lor (Z.shiftl sc 16) 0 in
  let up := Z.lor (Z.shiftl sc 16) 1342177281 in
  (down =? sc * 65536) && (up =? sc * 65536 + 1342177281) &&
  (repeat_count down =? 0) && (repeat_count up =? 1) &&
  (scan_code down =? sc) && (scan_code up =? sc) &&
  negb (Z.testbit down 30) && negb (Z.testbit down 31) &&
  Z.testbit up 30 && negb (Z.testbit up 31).

(** The virtual key of a delivered key is a byte, with bit 9 added for ctrl. *)
Definition vk_in_range (p : Z * Z * Z * Z) : Prop :=
  0 <= snd (fst (fst p)) < 768.

(** An event that is no part of a restore: neither a thread-input call nor a
    foreground change. *)
Definition uses_no_restore (ev : event) : bool :=
  match ev with
  | EvAttach _ _ _ | EvSetForeground _ => false
  | _ => true
  end.

(** Thread input can be attached, and the key after the alt press fails. *)
Definition second_press_fails : Desk :=
  {| foreground := 100; current_thread := 1; windows := two_windows;
     press_script := [true; false]; attach_script := []; setfg_script := [] |}.

(** A keyboard with a fixed layout on which no call fails: the scan code of a
    virtual key is its low byte halved. *)
Definition plain_keyboard : Keyboard Desk :=
  {| VkKeyScan := fun c d =>
       (Return (match c with
                | String a EmptyString => Z.of_nat (nat_of_ascii a) + 256
                | _ => -1
                end), d);
     MapVirtualKey := fun vk _ d => (Return (Z.land vk 255 / 2), d);
     SendMessage := fun _ _ _ _ d => (Return tt, d);
     PostMessage := fun _ _ _ _ d => (Return tt, d) |}.

Definition at_desk (d : Desk) : istate Desk :=
  {| desktop := start d; deliveries := [] |}.

(** ** Counting the calls of [focus] *)

(** How many of the events satisfy [f]. *)
Definition count_events (f : event -> bool) (evs : list event) : nat :=
  List.length (filter f evs).

Definition is_attach (e : event) : bool :=
  match e with
  | EvAttach _ _ _ => true
  | _ => false
  end.

Definition is_set_foreground (e : event) : bool :=
  match e with
  | EvSetForeground _ => true
  | _ => false
  end.

Definition is_sleep (e : event) : bool :=
  match e with
  | EvSleep _ => true
  | _ => false
  end.

(** * Proof automation for the monadic definitions *)

Ltac unfold_py :=
  unfold Py.bind, Py.ret, Py.throw, Py.get, Py.modify, Py.lift, Py.try_except_else in *.

Ltac unfold_focus :=
  unfold focus, focus_back_to_last_window, focus_loop, focus_attempt, raise_exc,
    delattr_window_handle, thread_id, window_handle, as_int, os_call, emit,
    update_self, differs in *.

Ltac innermost x :=
  lazymatch x with
  | context [match _ with _ => _ end] => fail
  | _ => idtac
  end.

Ltac units := repeat match goal with u : unit |- _ => destruct u end.

Ltac simpl_run :=
  cbn [self world events fst snd window_handle_cache thread_id_cache
       last_window_handle last_window_thread_id window_name
       set_last_window_handle set_last_window_thread_id
       set_window_handle_cache set_thread_id_cache negb] in *.

(** Splits a run on the outcome of every call and test it makes. *)
Ltac split_run :=
  repeat (simpl_run;
          match goal with
          | |- context [match ?x with _ => _ end] => innermost x; destruct x eqn:?
          end);
  simpl_run.

Ltac no_raise Hfind Hgw Hpress Hatt Hset :=
  match goal with
  | H : FindWindow _ ?a ?w = (Raise _, _) |- _ =>
      specialize (Hfind a w); rewrite H in Hfind; discriminate
  | H : GetWindowThreadProcessId _ ?a ?w = (Raise _, _) |- _ =>
      specialize (Hgw a w); rewrite H in Hgw; discriminate
  | H : press_and_release _ ?a ?b ?w = (Raise _, _) |- _ =>
      specialize (Hpress a b w); rewrite H in Hpress; discriminate
  | H : AttachThreadInput _ ?a ?b ?c ?w = (Raise _, _) |- _ =>
      specialize (Hatt a b c w); rewrite H in Hatt; discriminate
  | H : SetForegroundWindow _ ?a ?w = (Raise _, _) |- _ =>
      specialize (Hset a w); rewrite H in Hset; discriminate
  end.

Ltac same_window :=
  match goal with
  | Hb : negb (?x =? ?y) = false |- _ =>
      apply Bool.negb_false_iff, Z.eqb_eq in Hb; congruence
  end.

Ltac unfold_send :=
  unfold send_to_window, press_key, char2key, _prepare_lparam, kb_call, on_desktop,
    deliver, window_handle, os_call, emit, update_self in *.

Ltac simpl_send :=
  cbn [desktop deliveries self world events fst snd window_handle_cache thread_id_cache
       last_window_handle last_window_thread_id window_name
       set_window_handle_cache negb] in *.

Ltac split_send :=
  repeat (simpl_send;
          match goal with
          | |- context [match ?x with _ => _ end] => innermost x; destruct x eqn:?
          end);
  simpl_send.

(** * Properties *)

(** ** [read_memory] *)

Lemma le_value_bounds (bs : list byte) :
  0 <= le_value bs < 256 ^ Z.of_nat (List.length bs).
Proof.
  induction bs as [|b bs IH].
  - simpl. lia.
  - cbn [le_value List.length]. rewrite Nat2Z.inj_succ, Z.pow_succ_r by lia.
    pose proof (Byte.to_N_bounded b) as Hb.
    assert (0 <= Z.of_N (Byte.to_N b) <= 255) by lia.
    lia.
Qed.

Lemma read_bytes_length (t : Target) (n : nat) :
  forall addr bs, read_bytes t addr n = Some bs -> List.length bs = n.
Proof.
  induction n as [|n IH]; intros addr bs H; simpl in H.
  - now inversion H.
  - destruct (byte_at t addr); [|discriminate].
    destruct (read_bytes t (addr + 1) n) eqn:E; [|discriminate].
    inversion H; subst. simpl. f_equal. eauto.
Qed.

(** What a successful read stores is an unsigned value of the requested width. *)
Lemma kernel_read_unsigned (t : Target) (addr : Z) (size : nat) (v : Z) :
  kernel_read t addr size = Some v -> 0 <= v < 256 ^ Z.of_nat size.
Proof.
  unfold kernel_read. destruct (handle_valid t); [|discriminate].
  destruct (read_bytes t addr size) as [bs|] eqn:E; [|discriminate].
  simpl. intros H. inversion H; subst.
  rewrite <- (read_bytes_length _ _ _ _ E). apply le_value_bounds.
Qed.


Lemma last_cons_default {A : Type} (x d : A) (l : list A) :
  last (x :: l) d = last l x.
Proof.
  revert x d. induction l as [|y l IH]; intros x d; [reflexivity|].
  change (last (x :: y :: l) d) with (last (y :: l) d).
  now rewrite (IH y d), (IH y x).
Qed.

(** One read call: it reaches the system when the address converts, and
    raises without a trace when it does not. *)
Lemma read_into_data_run (t : Target) (addr : Z) (size : nat) (s : rm_state) :
  read_into_data t addr size s =
    if ctypes_int addr
    then (Return tt, {| data := data_after t size (data s) addr;
                        reads := reads s ++ [(addr, size)] |})
    else (Raise (ArgumentError 2), s).
Proof.
  unfold read_into_data, ReadProcessMemory, data_after, Py.bind, Py.lift, Py.modify.
  destruct (ctypes_int addr); reflexivity.
Qed.

(** One round of the loop over the offsets. *)
Lemma chain_loop_cons (t : Target) (size : nat) (o : offset) (rest : list offset)
      (current : Z) (s : rm_state) :
  chain_loop t size (o :: rest) current s =
    match offset_value o with
    | Raise e => (Raise e, s)
    | Return z =>
        if ctypes_int current
        then chain_loop t size rest (data_after t size (data s) current + z)
                        {| data := data_after t size (data s) current;
                           reads := reads s ++ [(current, size)] |}
        else (Raise (ArgumentError 2), s)
    end.
Proof.
  cbn [chain_loop]. unfold Py.bind at 1, Py.lift.
  destruct (offset_value o) as [z|e]; [|reflexivity].
  unfold Py.bind at 1. rewrite read_into_data_run.
  destruct (ctypes_int current); reflexivity.
Qed.

Lemma chain_values_length (offsets : list offset) :
  forall zs, chain_values offsets = Some zs -> List.length zs = List.length offsets.
Proof.
  induction offsets as [|o rest IH]; intros zs H; simpl in H.
  - now inversion H.
  - destruct (offset_value o); [|discriminate].
    destruct (chain_values rest) as [zs'|]; [|discriminate].
    inversion H; subst. simpl. f_equal. now apply IH.
Qed.


Lemma read_memory_chain_run (t : Target) (address : Z) (offsets : list offset)
      (byte : bool) :
  offsets <> [] ->
  read_memory t address (Some offsets) byte =
    let '(r, s) := chain_loop t (sizeof_data byte) offsets address
                              {| data := 0; reads := [] |} in
    (match r with
     | Return final => Return (final, data s)
     | Raise e => Raise e
     end, reads s).
Proof.
  intros Hne. destruct offsets as [|o rest]; [congruence|].
  unfold read_memory, read_memory_m. cbn [truthy]. unfold Py.bind at 1.
  destruct (chain_loop t (sizeof_data byte) (o :: rest) address _) as [[final|e] s];
    reflexivity.
Qed.

Lemma read_memory_single_run (t : Target) (address : Z) (offsets : option (list offset))
      (byte : bool) :
  truthy offsets = false ->
  read_memory t address offsets byte =
    if ctypes_int address
    then (Return (address, data_after t (sizeof_data byte) 0 address),
          [(address, sizeof_data byte)])
    else (Raise (ArgumentError 2), []).
Proof.
  intros Hf. unfold read_memory, read_memory_m. rewrite Hf.
  unfold Py.bind at 1. unfold Py.bind at 1. rewrite read_into_data_run.
  destruct (ctypes_int address); reflexivity.
Qed.

Example int_base16_0x10 : int_base16 "0x10" = Return 16.
Proof. reflexivity. Qed.

Example int_base16_malformed : int_base16 "0x1g" = Raise (ValueError "0x1g").
Proof. reflexivity. Qed.

(** The scripted two-step read: two chained reads, the last address and the
    value read by the second. *)
Example read_memory_two_steps :
  read_memory two_step_ram (4194304 + 16) (Some [OInt 24; OStr "0x4"]) false =
    (Return (6291460, 6291456), [(4194320, 4%nat); (5242904, 4%nat)]).
Proof. reflexivity. Qed.




Lemma data_after_failed (t : Target) (size : nat) (before addr : Z) :
  kernel_read t addr size = None -> data_after t size before addr = before.
Proof. unfold data_after. now intros ->. Qed.

Lemma chain_loop_unchecked (t : Target) (size : nat) :
  forall offsets zs current s,
    chain_values offsets = Some zs ->
    match resolve_unchecked t size zs current (data s) with
    | Return (final, value) =>
        fst (chain_loop t size offsets current s) = Return final /\
        data (snd (chain_loop t size offsets current s)) = value
    | Raise e => fst (chain_loop t size offsets current s) = Raise e
    end.
Proof.
  induction offsets as [|o rest IH]; intros zs current s Hzs; simpl in Hzs.
  - inversion Hzs; subst. simpl. split; reflexivity.
  - destruct (offset_value o) as [z|] eqn:Ho; [|discriminate].
    destruct (chain_values rest) as [zs'|] eqn:Hr; [|discriminate].
    inversion Hzs; subst zs; clear Hzs.
    rewrite chain_loop_cons, Ho. cbn [resolve_unchecked].
    destruct (ctypes_int current); [|reflexivity].
    exact (IH zs' (data_after t size (data s) current + z)
              {| data := data_after t size (data s) current;
                 reads := reads s ++ [(current, size)] |} eq_refl).
Qed.

Lemma resolve_unchecked_raises (t : Target) (size : nat) :
  forall zs current before e,
    resolve_unchecked t size zs current before = Raise e -> e = ArgumentError 2.
Proof.
  induction zs as [|z zs IH]; intros current before e H; cbn [resolve_unchecked] in H.
  - discriminate.
  - destruct (ctypes_int current); [eauto|]. now inversion H.
Qed.

(** C2, as the code has it.  A failed read raises nothing: the buffer keeps
    what it held before the read (zero before the first successful read),
    that content is taken as the value read, and the resolution goes on.  For
    a single read at an unreadable address that converts to a C integer the
    call returns the address and zero.  The one error a call with well-formed
    offsets can raise is the argument error for an address that does not
    convert. *)
Theorem read_memory_failed_read_unnoticed (t : Target) (address : Z)
        (offsets : option (list offset)) (zs : list Z) (byte : bool) :
  chain_values (match offsets with Some l => l | None => [] end) = Some zs ->
  fst (read_memory t address offsets byte) =
    (if truthy offsets
     then resolve_unchecked t (sizeof_data byte) zs address 0
     else if ctypes_int address
          then Return (address, data_after t (sizeof_data byte) 0 address)
          else Raise (ArgumentError 2)) /\
  (truthy offsets = false ->
   ctypes_int address = true ->
   kernel_read t address (sizeof_data byte) = None ->
   read_memory t address offsets byte =
     (Return (address, 0), [(address, sizeof_data byte)])) /\
  (forall e, fst (read_memory t address offsets byte) = Raise e -> e = ArgumentError 2).
Proof.
  intros Hzs.
  assert (H1 : fst (read_memory t address offsets byte) =
               (if truthy offsets
                then resolve_unchecked t (sizeof_data byte) zs address 0
                else if ctypes_int address
                     then Return (address, data_after t (sizeof_data byte) 0 address)
                     else Raise (ArgumentError 2))).
  { destruct (truthy offsets) eqn:Ht.
    - destruct offsets as [[|o rest]|]; try discriminate.
      rewrite read_memory_chain_run by discriminate.
      pose proof (chain_loop_unchecked t (sizeof_data byte) (o :: rest) zs address
                    {| data := 0; reads := [] |} Hzs) as Hrun.
      cbn [data] in Hrun.
      destruct (resolve_unchecked t (sizeof_data byte) zs address 0) as [[final value]|e];
        destruct (chain_loop t (sizeof_data byte) (o :: rest) address _) as [[f|e'] s'];
        cbn [fst snd] in *.
      + destruct Hrun as [Hf Hd]. inversion Hf; subst. reflexivity.
      + destruct Hrun as [Hf _]. discriminate Hf.
      + discriminate Hrun.
      + now inversion Hrun.
    - rewrite read_memory_single_run by exact Ht.
      now destruct (ctypes_int address). }
  split; [exact H1|]. split.
  - intros Ht Hc Hfail. rewrite read_memory_single_run by exact Ht.
    rewrite Hc. now rewrite data_after_failed.
  - intros e He. rewrite H1 in He. destruct (truthy offsets).
    + eapply resolve_unchecked_raises; eauto.
    + destruct (ctypes_int address); [discriminate|now inversion He].
Qed.

Lemma read_memory_failed_read_unnoticed_witness :
  fst (read_memory two_step_ram 4194320
                   (Some [OInt 24; OStr "0x4"; OInt 1]) false) =
    Return (6291457, 6291456) /\
  read_memory unmapped 4096 None false = (Return (4096, 0), [(4096, 4%nat)]).
Proof.
  split.
  - exact (proj1 (read_memory_failed_read_unnoticed two_step_ram 4194320
                    (Some [OInt 24; OStr "0x4"; OInt 1]) [24; 4; 1] false eq_refl)).
  - exact (proj1 (proj2 (read_memory_failed_read_unnoticed unmapped 4096 None [] false
                           eq_refl))
                 eq_refl eq_refl eq_refl).
Defined.

(** C2, as stated, fails: the read at the unmapped address 0x1000 reaches the
    system and fails, and the call returns the address with a zero value
    instead of raising. *)
Lemma read_memory_failed_read_returns_zero :
  some_read_failed unmapped (snd (read_memory unmapped 4096 None false)) = true /\
  raises (fst (read_memory unmapped 4096 None false)) = false /\
  fst (read_memory unmapped 4096 None false) = Return (4096, 0).
Proof. repeat split. Qed.

Lemma chain_loop_same_values (t : Target) (size : nat) (l1 l2 : list offset) :
  Forall2 (fun o1 o2 => offset_value o1 = offset_value o2) l1 l2 ->
  forall current s, chain_loop t size l1 current s = chain_loop t size l2 current s.
Proof.
  induction 1 as [|o1 o2 l1 l2 Ho _ IH]; intros current s; [reflexivity|].
  rewrite !chain_loop_cons, Ho.
  destruct (offset_value o2) as [z|e]; [|reflexivity].
  destruct (ctypes_int current); [apply IH|reflexivity].
Qed.

Lemma read_memory_same_values (t : Target) (address : Z) (byte : bool)
      (l1 l2 : list offset) :
  Forall2 (fun o1 o2 => offset_value o1 = offset_value o2) l1 l2 ->
  read_memory t address (Some l1) byte = read_memory t address (Some l2) byte.
Proof.
  intros H. destruct H as [|o1 o2 l1 l2 Ho Hl]; [reflexivity|].
  rewrite !read_memory_chain_run by discriminate.
  rewrite (chain_loop_same_values t (sizeof_data byte) (o1 :: l1) (o2 :: l2));
    [reflexivity|now constructor].
Qed.

Lemma Forall2_same_value_refl (l : list offset) :
  Forall2 (fun o1 o2 => offset_value o1 = offset_value o2) l l.
Proof. induction l; constructor; auto. Qed.

(** C3. At every position of a chain and from every starting address the
    offset 16 and the offset "0x10" give the same resolution; and in general
    two chains whose offsets agree position by position in numeric value, a
    string being read as hexadecimal, give the same result and the same
    reads. *)
Theorem read_memory_offset_forms_agree (t : Target) (address : Z) (byte : bool) :
  (forall before after : list offset,
      read_memory t address (Some (before ++ OInt 16 :: after)) byte =
      read_memory t address (Some (before ++ OStr "0x10" :: after)) byte) /\
  (forall l1 l2 : list offset,
      Forall2 same_offset l1 l2 ->
      read_memory t address (Some l1) byte = read_memory t address (Some l2) byte).
Proof.
  split.
  - intros before after. apply read_memory_same_values. apply Forall2_app.
    + apply Forall2_same_value_refl.
    + constructor; [reflexivity|apply Forall2_same_value_refl].
  - intros l1 l2 H. apply read_memory_same_values.
    induction H as [|o1 o2 l1 l2 (z & H1 & H2) _ IH]; constructor; [congruence|exact IH].
Qed.

Lemma read_memory_offset_forms_agree_witness :
  Forall2 same_offset [OInt 24; OInt 16; OStr "-0x8"] [OStr "18"; OStr "0x10"; OInt (-8)] /\
  read_memory two_step_ram 4194320 (Some [OInt 24; OInt 16; OStr "-0x8"]) false =
  read_memory two_step_ram 4194320 (Some [OStr "18"; OStr "0x10"; OInt (-8)]) false.
Proof.
  assert (H : Forall2 same_offset [OInt 24; OInt 16; OStr "-0x8"]
                      [OStr "18"; OStr "0x10"; OInt (-8)]).
  { repeat constructor.
    - exists 24. split; reflexivity.
    - exists 16. split; reflexivity.
    - exists (-8). split; reflexivity. }
  split; [exact H|].
  exact (proj2 (read_memory_offset_forms_agree two_step_ram 4194320 false) _ _ H).
Defined.

(** The separator characters 28 to 31 are no white space for [int]: a literal
    that starts with one is malformed. *)
Example int_base16_separator :
  int_base16 (String (ascii_of_nat 28) "10") = Raise (ValueError (String (ascii_of_nat 28) "10")).
Proof. reflexivity. Qed.

(** C10, as stated, fails: the address 2^32 does not convert to a C integer,
    and the call with an empty chain raises without a read. *)
Lemma read_memory_empty_chain_address_overflow :
  read_memory two_step_ram 4294967296 (Some []) false = (Raise (ArgumentError 2), []).
Proof. reflexivity. Qed.

(** C10, as the code has it.  An empty chain behaves as no chain at all.  For
    an address that converts to a C integer one read is issued, at the given
    address, and the call returns that address with the value read there;
    nothing is dereferenced further.  For an address that does not convert the
    call raises the argument error and no read is issued. *)
Theorem read_memory_empty_chain (t : Target) (address : Z) (byte : bool) :
  read_memory t address (Some []) byte = read_memory t address None byte /\
  (ctypes_int address = true ->
   snd (read_memory t address (Some []) byte) = [(address, sizeof_data byte)] /\
   (exists value, fst (read_memory t address (Some []) byte) = Return (address, value)) /\
   (forall v, kernel_read t address (sizeof_data byte) = Some v ->
              fst (read_memory t address (Some []) byte) = Return (address, v))) /\
  (ctypes_int address = false ->
   read_memory t address (Some []) byte = (Raise (ArgumentError 2), [])).
Proof.
  rewrite (read_memory_single_run t address (Some []) byte eq_refl).
  rewrite (read_memory_single_run t address None byte eq_refl).
  split; [reflexivity|]. split.
  - intros ->. repeat split.
    + eexists. reflexivity.
    + intros v Hv. cbn [fst]. unfold data_after. now rewrite Hv.
  - intros ->. reflexivity.
Qed.

Lemma read_memory_empty_chain_witness :
  kernel_read two_step_ram 4194320 4 = Some 5242880 /\
  fst (read_memory two_step_ram 4194320 (Some []) false) = Return (4194320, 5242880) /\
  read_memory two_step_ram 4294967296 (Some []) false = (Raise (ArgumentError 2), []).
Proof.
  split; [reflexivity|]. split.
  - apply (proj2 (proj2 (proj1 (proj2 (read_memory_empty_chain two_step_ram 4194320 false))
                          eq_refl))).
    reflexivity.
  - apply (proj2 (proj2 (read_memory_empty_chain two_step_ram 4294967296 false))).
    reflexivity.
Defined.

(** ** [get_by_name] *)

Lemma first_module_find (casefold : string -> string) (d : Discovery) (search : string)
      (pid0 handle : Z) (bases : list Z) :
  match find (decides casefold search) (map (module_entry d pid0 handle) bases) with
  | Some (Module p base _) =>
      first_module casefold d search handle bases = Return (Some base) /\ p = pid0
  | Some (Broken e) => first_module casefold d search handle bases = Raise e
  | None => first_module casefold d search handle bases = Return None
  end.
Proof.
  induction bases as [|base rest IH]; [reflexivity|].
  cbn [first_module map find].
  set (m := module_entry d pid0 handle base).
  assert (Hm : m = match GetModuleFileNameEx d handle base with
                   | Return path => Module pid0 base path
                   | Raise e => Broken e
                   end) by reflexivity.
  clearbody m.
  destruct (GetModuleFileNameEx d handle base) as [path|e]; subst m; cbn [decides];
    [|reflexivity].
  unfold path_matches.
  destruct (str_in (casefold search) (casefold path)); [split; reflexivity|exact IH].
Qed.

Lemma find_app {A : Type} (f : A -> bool) (l1 l2 : list A) :
  find f (l1 ++ l2) = match find f l1 with
                      | Some x => Some x
                      | None => find f l2
                      end.
Proof.
  induction l1 as [|x l1 IH]; [reflexivity|].
  simpl. destruct (f x); [reflexivity|exact IH].
Qed.

(** What [find] gives is the first element that satisfies the test. *)
Lemma find_first {A : Type} (f : A -> bool) (l : list A) (x : A) :
  find f l = Some x ->
  exists before after,
    l = before ++ x :: after /\ Forall (fun y => f y = false) before /\ f x = true.
Proof.
  induction l as [|y l IH]; [discriminate|].
  cbn [find]. destruct (f y) eqn:Hy.
  - intros H. inversion H; subst. exists [], l. repeat split; [constructor|exact Hy].
  - intros H. destruct (IH H) as (before & after & -> & Hb & Hx).
    exists (y :: before), after. repeat split; [now constructor|exact Hx].
Qed.

Lemma find_none_Forall {A : Type} (f : A -> bool) (l : list A) :
  find f l = None -> Forall (fun y => f y = false) l.
Proof.
  intros H. apply Forall_forall. intros y Hy. exact (find_none _ _ H y Hy).
Qed.

Lemma handles_of_app (d : Discovery) (l1 l2 : list Z) :
  handles_of d (l1 ++ l2) = handles_of d l1 ++ handles_of d l2.
Proof. unfold handles_of. apply flat_map_app. Qed.

(** One round of the loop, by the first entry of the process that ends the
    search. *)
Lemma visit_process_spec (casefold : string -> string) (d : Discovery)
      (search title : string) (pid0 : Z) (closed : closed_handles) :
  pid0 <> -1 ->
  match find (decides casefold search) (modules_of d pid0) with
  | Some (Module p base _) =>
      fst (visit_process casefold d search title pid0 closed) =
        Return (Some (Process_init p search title base))
  | Some (Broken e) => fst (visit_process casefold d search title pid0 closed) = Raise e
  | None =>
      visit_process casefold d search title pid0 closed =
        (Return None, closed ++ handles_of d [pid0])
  end.
Proof.
  intros Hp. unfold visit_process, modules_of. cbn [handles_of flat_map].
  destruct (Z.eqb_spec pid0 (-1)) as [|_]; [contradiction|].
  destruct (OpenProcess d pid0) as [handle|e0]; cbn [app].
  - unfold Py.finally, Py.bind at 1, Py.lift at 1.
    destruct (EnumProcessModules d handle) as [bases|e].
    + pose proof (first_module_find casefold d search pid0 handle bases) as Hf.
      unfold Py.bind, Py.lift, Py.ret.
      destruct (find (decides casefold search) (map (module_entry d pid0 handle) bases))
        as [[p base path|e]|].
      * destruct Hf as [-> ->]. cbn [option_map].
        destruct (handle =? 0); reflexivity.
      * rewrite Hf. destruct (handle =? 0); reflexivity.
      * rewrite Hf. cbn [option_map].
        destruct (handle =? 0); unfold CloseHandle, Py.modify;
          rewrite ?app_nil_r; reflexivity.
    + cbn [find decides]. destruct (handle =? 0); reflexivity.
  - unfold Py.ret. cbn [find]. now rewrite app_nil_r.
Qed.

Lemma get_by_name_loop_spec (casefold : string -> string) (d : Discovery)
      (search title : string) :
  forall pids closed,
    ~ In (-1) pids ->
    match find (decides casefold search) (flat_map (modules_of d) pids) with
    | Some (Module p base _) =>
        fst (get_by_name_loop casefold d search title pids closed) =
          Return (Process_init p search title base)
    | Some (Broken e) =>
        fst (get_by_name_loop casefold d search title pids closed) = Raise e
    | None =>
        get_by_name_loop casefold d search title pids closed =
          (Raise (not_found search), closed ++ handles_of d pids)
    end.
Proof.
  induction pids as [|pid0 rest IH]; intros closed Hs.
  - simpl. now rewrite app_nil_r.
  - assert (Hp : pid0 <> -1) by (intros ->; apply Hs; now left).
    assert (Hr : ~ In (-1) rest) by (intros Hin; apply Hs; now right).
    cbn [flat_map get_by_name_loop]. rewrite find_app.
    replace (handles_of d (pid0 :: rest)) with (handles_of d [pid0] ++ handles_of d rest)
      by (symmetry; apply (handles_of_app d [pid0] rest)).
    pose proof (visit_process_spec casefold d search title pid0 closed Hp) as Hv.
    unfold Py.bind at 1 2 3.
    destruct (find (decides casefold search) (modules_of d pid0)) as [[p base path|e]|].
    + destruct (visit_process casefold d search title pid0 closed) as [[r|e] closed'];
        cbn [fst] in Hv; inversion Hv; subst. reflexivity.
    + destruct (visit_process casefold d search title pid0 closed) as [[r|e'] closed'];
        cbn [fst] in Hv; inversion Hv; subst. reflexivity.
    + rewrite Hv. specialize (IH (closed ++ handles_of d [pid0]) Hr).
      destruct (find (decides casefold search) (flat_map (modules_of d) rest))
        as [[p base path|e]|]; try exact IH.
      rewrite IH. now rewrite <- app_assoc.
Qed.

Lemma prefix_spec (needle hay : string) :
  String.prefix needle hay = true <-> exists post, hay = (needle ++ post)%string.
Proof.
  revert needle. induction hay as [|b hay IH]; intros [|a needle]; simpl.
  - split; [exists EmptyString; reflexivity|reflexivity].
  - split; [discriminate|intros (post & H); discriminate].
  - split; [exists (String b hay); reflexivity|reflexivity].
  - destruct (ascii_dec a b) as [->|Hab].
    + rewrite IH. split; intros (post & H); exists post; [now rewrite H|now inversion H].
    + split; [discriminate|intros (post & H); congruence].
Qed.

(** [str_in] is containment as a substring. *)
Lemma str_in_spec (needle hay : string) :
  str_in needle hay = true <->
  exists pre post, hay = (pre ++ needle ++ post)%string.
Proof.
  induction hay as [|b hay IH].
  - cbn [str_in]. rewrite orb_false_r, prefix_spec. split.
    + intros (post & H). exists EmptyString, post. exact H.
    + intros ([|c pre] & post & H); [now exists post|discriminate].
  - cbn [str_in]. rewrite orb_true_iff, prefix_spec, IH. split.
    + intros [(post & H)|(pre & post & H)].
      * exists EmptyString, post. exact H.
      * exists (String b pre), post. simpl. now rewrite H.
    + intros ([|c pre] & post & H).
      * left. now exists post.
      * right. simpl in H. inversion H; subst. now exists pre, post.
Qed.

(** C4, as stated, fails: the modules of process 12, which opens, cannot be
    enumerated; that error leaves [get_by_name] although a later process has
    a module whose path contains the search string, and it is no not-found
    error. *)
Lemma get_by_name_module_error_propagates :
  find (matches casefold_ascii_text "game") (enumeration guarded_machine) =
    Some (Module 16 4194304 "C:\Game\game.exe") /\
  get_by_name casefold_ascii_text guarded_machine "game" "Game Window" =
    (Raise (OSError 299), [1012]).
Proof. split; reflexivity. Qed.

(** C4, as the code has it.  The search goes through the modules of the
    openable processes in enumeration order and ends at the first entry that
    is a module whose file path contains the search string, letter case aside,
    or a module call that raises.  At a module it returns the identity with
    that module's process id and base address; at a failing module call that
    error leaves [get_by_name].  It fails with the not-found error, which
    carries the search string, only when no module matches and no module call
    raises, and then every openable process has been visited (its query handle
    opened and closed). *)
Theorem get_by_name_first_match (casefold : string -> string) (d : Discovery)
        (search title : string) :
  ~ In (-1) (EnumProcesses d) ->
  match find (decides casefold search) (enumeration d) with
  | Some (Module pid0 base path) =>
      str_in (casefold search) (casefold path) = true /\
      (exists before after,
          enumeration d = before ++ Module pid0 base path :: after /\
          Forall (fun x => decides casefold search x = false) before) /\
      (exists p,
          fst (get_by_name casefold d search title) = Return p /\
          process_id p = pid0 /\ base_address p = base /\
          process_name p = search /\ window_name p = title)
  | Some (Broken e) =>
      (exists before after,
          enumeration d = before ++ Broken e :: after /\
          Forall (fun x => decides casefold search x = false) before) /\
      fst (get_by_name casefold d search title) = Raise e
  | None =>
      Forall (fun x => decides casefold search x = false) (enumeration d) /\
      get_by_name casefold d search title =
        (Raise (Exception (search ++ " could not be found.")%string),
         opened_handles d)
  end.
Proof.
  intros Hs. unfold enumeration, get_by_name.
  pose proof (get_by_name_loop_spec casefold d search title (EnumProcesses d) [] Hs) as H.
  destruct (find (decides casefold search) (flat_map (modules_of d) (EnumProcesses d)))
    as [[pid0 base path|e]|] eqn:E.
  - destruct (find_first _ _ _ E) as (before & after & Hl & Hb & Hx).
    split; [exact Hx|]. split; [now exists before, after|].
    eexists. split; [exact H|]. repeat split.
  - destruct (find_first _ _ _ E) as (before & after & Hl & Hb & Hx).
    split; [now exists before, after|exact H].
  - split; [now apply find_none_Forall|exact H].
Qed.

Lemma get_by_name_first_match_witness :
  exists p,
    fst (get_by_name casefold_ascii_text sample_machine "GAME" "Game Window") = Return p /\
    process_id p = 16 /\ base_address p = 4194304 /\
    process_name p = "GAME" /\ window_name p = "Game Window".
Proof.
  assert (Hs : ~ In (-1) (EnumProcesses sample_machine)).
  { simpl. intros [H|[H|[H|[H|[]]]]]; discriminate. }
  exact (proj2 (proj2 (get_by_name_first_match casefold_ascii_text sample_machine
                         "GAME" "Game Window" Hs))).
Defined.

(** ** [kill_by_name] *)

Lemma kill_loop_unfold (casefold : string -> string) (names : list string) (p : proc)
      (procs : list proc) (s : kill_state) :
  kill_loop casefold names (p :: procs) s =
    match kill_step casefold names p s with
    | (Return _, s') => kill_loop casefold names procs s'
    | (Raise e, s') => (Raise e, s')
    end.
Proof.
  cbn [kill_loop]. unfold kill_step, Py.bind at 1 3, Py.lift.
  destruct (name p) as [n|e]; [|reflexivity].
  unfold Py.bind at 1.
  match goal with |- match ?step with _ => _ end = _ =>
    destruct step as [[[]|e] s'] end; reflexivity.
Qed.

(** One round of the loop: it goes on exactly when the process passes, and
    [kill] has been called exactly when the process is asked for. *)
Lemma kill_step_run (casefold : string -> string) (names : list string) (p : proc)
      (s : kill_state) :
  exists log,
    kill_step casefold (map casefold names) p s =
      (if passes casefold names p then Return tt else stopping_error p,
       {| attempts := attempts s ++ (if targeted casefold names p then [pid p] else []);
          debug_log := log |}).
Proof.
  unfold kill_step, passes, targeted, stopping_error, Py.bind at 1, Py.lift.
  destruct (name p) as [n|e]; cbn [raises negb andb].
  - destruct (list_in (casefold n) (map casefold names)); cbn [negb orb].
    + unfold Py.try_except_else, call_kill, Py.bind, Py.modify, Py.lift.
      destruct (kill p) as [[]|e]; [eexists; reflexivity|].
      destruct e; cbn; eexists; reflexivity.
    + exists (debug_log s). unfold Py.ret. rewrite app_nil_r. now destruct s.
  - exists (debug_log s). rewrite app_nil_r. now destruct s.
Qed.

Lemma stopping_error_raises (casefold : string -> string) (names : list string) (p : proc) :
  passes casefold names p = false ->
  exists e, stopping_error p = Raise e /\
            (name p = Raise e \/
             targeted casefold names p = true /\ kill p = Raise e /\
             e <> AccessDenied /\ e <> NoSuchProcess).
Proof.
  unfold passes, stopping_error, targeted.
  destruct (name p) as [n|e]; cbn [raises negb andb].
  - destruct (list_in (casefold n) (map casefold names)); cbn [negb orb]; [|discriminate].
    destruct (kill p) as [[]|e]; [discriminate|].
    intros H. exists e. split; [reflexivity|]. right.
    repeat split; intros ->; discriminate H.
  - intros _. exists e. split; [reflexivity|now left].
Qed.

Lemma kill_loop_all_pass (casefold : string -> string) (names : list string) :
  forall procs s,
    (forall p, In p procs -> passes casefold names p = true) ->
    fst (kill_loop casefold (map casefold names) procs s) = Return tt /\
    attempts (snd (kill_loop casefold (map casefold names) procs s)) =
      attempts s ++ map pid (filter (targeted casefold names) procs).
Proof.
  induction procs as [|p rest IH]; intros s Hok.
  - simpl. now rewrite app_nil_r.
  - rewrite kill_loop_unfold.
    destruct (kill_step_run casefold names p s) as (log & ->).
    rewrite (Hok p (or_introl eq_refl)).
    match goal with |- context [kill_loop _ _ rest ?st] =>
      destruct (IH st (fun q Hq => Hok q (or_intror Hq))) as (Hr & Ha) end.
    split; [exact Hr|]. rewrite Ha. cbn [attempts filter].
    destruct (targeted casefold names p); cbn [map app].
    + now rewrite <- app_assoc.
    + now rewrite app_nil_r.
Qed.

Lemma kill_loop_stops (casefold : string -> string) (names : list string)
      (p : proc) (after : list proc) :
  passes casefold names p = false ->
  forall before s,
    (forall q, In q before -> passes casefold names q = true) ->
    fst (kill_loop casefold (map casefold names) (before ++ p :: after) s) =
      match stopping_error p with
      | Raise e => Raise e
      | Return _ => Return tt
      end /\
    attempts (snd (kill_loop casefold (map casefold names) (before ++ p :: after) s)) =
      attempts s ++ map pid (filter (targeted casefold names) (before ++ [p])).
Proof.
  intros Hp. destruct (stopping_error_raises casefold names p Hp) as (e & He & _).
  induction before as [|q before IH]; intros s Hok.
  - cbn [app]. rewrite kill_loop_unfold.
    destruct (kill_step_run casefold names p s) as (log & ->).
    rewrite Hp, He. cbn [fst snd attempts filter].
    destruct (targeted casefold names p); cbn [map]; split; reflexivity.
  - cbn [app]. rewrite kill_loop_unfold.
    destruct (kill_step_run casefold names q s) as (log & ->).
    rewrite (Hok q (or_introl eq_refl)).
    match goal with |- context [kill_loop _ _ _ ?st] =>
      destruct (IH st (fun r Hr => Hok r (or_intror Hr))) as (Hr & Ha) end.
    split; [exact Hr|]. rewrite Ha. cbn [attempts filter].
    destruct (targeted casefold names q); cbn [map app].
    + now rewrite <- app_assoc.
    + now rewrite app_nil_r.
Qed.

(** C5, as stated, fails: the first termination fails with an error other
    than access-denied and no-such-process; the call raises it, and the second
    process of the requested name is never attempted. *)
Lemma kill_by_name_failure_stops_batch :
  map pid (filter (targeted casefold_ascii_text ["metin2client.exe"]) stubborn_processes) =
    [300; 500] /\
  kill_by_name casefold_ascii_text ["metin2client.exe"] stubborn_processes =
    (Raise (OSError 31), {| attempts := [300]; debug_log := [] |}).
Proof. split; reflexivity. Qed.

(** C5, as the code has it.  A termination that fails with access-denied or
    because the process is already gone is swallowed, and the loop goes on:
    when every process passes (its name can be read and, if it is asked for,
    its termination succeeds or fails in one of these two ways), the call does
    not raise and has attempted every process asked for, in iteration order.
    The first process that does not pass ends the call: what is raised is the
    error of reading its name or else the error of its termination, the
    processes asked for up to it have been attempted, and none after it. *)
Theorem kill_by_name_best_effort (casefold : string -> string) (names : list string)
        (process_iter : list proc) :
  ((forall p, In p process_iter -> passes casefold names p = true) ->
   fst (kill_by_name casefold names process_iter) = Return tt /\
   attempts (snd (kill_by_name casefold names process_iter)) =
     map pid (filter (targeted casefold names) process_iter)) /\
  (forall before p after,
      process_iter = before ++ p :: after ->
      (forall q, In q before -> passes casefold names q = true) ->
      passes casefold names p = false ->
      exists e,
        (name p = Raise e \/
         targeted casefold names p = true /\ kill p = Raise e /\
         e <> AccessDenied /\ e <> NoSuchProcess) /\
        fst (kill_by_name casefold names process_iter) = Raise e /\
        attempts (snd (kill_by_name casefold names process_iter)) =
          map pid (filter (targeted casefold names) (before ++ [p]))).
Proof.
  split.
  - intros Hok. unfold kill_by_name.
    exact (kill_loop_all_pass casefold names process_iter
                              {| attempts := []; debug_log := [] |} Hok).
  - intros before p after -> Hok Hp. unfold kill_by_name.
    destruct (stopping_error_raises casefold names p Hp) as (e & He & Hwhy).
    destruct (kill_loop_stops casefold names p after Hp before
                              {| attempts := []; debug_log := [] |} Hok) as (Hr & Ha).
    rewrite He in Hr. exists e. split; [exact Hwhy|]. split; [exact Hr|exact Ha].
Qed.

Lemma kill_by_name_best_effort_witness :
  (fst (kill_by_name casefold_ascii_text ["METIN2CLIENT.exe"; "patcher.exe"; "system"]
                     sample_processes) = Return tt /\
   attempts (snd (kill_by_name casefold_ascii_text
                               ["METIN2CLIENT.exe"; "patcher.exe"; "system"]
                               sample_processes)) = [4; 300; 500; 640]) /\
  (exists e,
      (name {| pid := 300; name := Raise NoSuchProcess; kill := Return tt |} = Raise e \/
       targeted casefold_ascii_text ["metin2client.exe"]
                {| pid := 300; name := Raise NoSuchProcess; kill := Return tt |} = true /\
       kill {| pid := 300; name := Raise NoSuchProcess; kill := Return tt |} = Raise e /\
       e <> AccessDenied /\ e <> NoSuchProcess) /\
      fst (kill_by_name casefold_ascii_text ["metin2client.exe"] vanishing_processes) =
        Raise e /\
      attempts (snd (kill_by_name casefold_ascii_text ["metin2client.exe"]
                                  vanishing_processes)) = []).
Proof.
  split.
  - apply (proj1 (kill_by_name_best_effort casefold_ascii_text
                    ["METIN2CLIENT.exe"; "patcher.exe"; "system"] sample_processes)).
    intros p Hin. simpl in Hin.
    destruct Hin as [<-|[<-|[<-|[<-|[<-|[]]]]]]; reflexivity.
  - apply (proj2 (kill_by_name_best_effort casefold_ascii_text
                    ["metin2client.exe"] vanishing_processes)
                 [] {| pid := 300; name := Raise NoSuchProcess; kill := Return tt |}
                 [{| pid := 500; name := Return "metin2client.exe"; kill := Return tt |}]).
    + reflexivity.
    + intros q [].
    + reflexivity.
Defined.

(** A process that is gone when its name is read ends the call, although
    no-such-process is one of the two errors the loop handles. *)
Example kill_by_name_unreadable_name :
  kill_by_name casefold_ascii_text ["metin2client.exe"] vanishing_processes =
    (Raise NoSuchProcess, {| attempts := []; debug_log := [] |}).
Proof. reflexivity. Qed.

(** ** [focus] and [focus_back_to_last_window] *)

(** [target_window] is what evaluating [self.window_handle] returns. *)
Lemma window_handle_target (W : Type) (os : Win32 W) (s : fstate W) :
  fst (window_handle os s) = target_window os s.
Proof.
  unfold target_window, window_handle, os_call, emit, update_self. unfold_py.
  split_run; reflexivity.
Qed.

(** C6. When the target window is already the foreground window, [focus]
    returns without pressing a key, without attaching thread input and
    without setting the foreground window. *)
Theorem focus_idempotent (W : Type) (os : Win32 W) (s : fstate W) :
  target_window os s = Return (GetForegroundWindow os (world s)) ->
  fst (focus os s) = Return tt /\
  focus_effects (events (snd (focus os s))) = focus_effects (events s) /\
  events (snd (focus os s)) =
    events s ++ match window_handle_cache (self s) with
                | Some _ => []
                | None => [EvFindWindow (window_name (self s))]
                end.
Proof.
  unfold target_window. intros Ht. unfold_focus. unfold_py.
  destruct s as [p w evs]. cbn [self world events] in *.
  destruct (window_handle_cache p) as [h|] eqn:Hc.
  - inversion Ht; subst h. cbn [set_last_window_handle set_last_window_thread_id
                                window_handle_cache self world events fst snd].
    rewrite Hc. rewrite Z.eqb_refl. cbn. rewrite app_nil_r. auto.
  - cbn [set_last_window_handle set_last_window_thread_id
         window_handle_cache self world events fst snd].
    rewrite Hc. cbn [self world events window_name].
    destruct (FindWindow os (window_name p) w) as [r w'] eqn:Hf.
    cbn [fst] in Ht. subst r.
    cbn [window_name set_last_window_thread_id set_last_window_handle].
    rewrite Hf. cbn [self world events fst snd].
    rewrite Z.eqb_refl. cbn [negb fst snd events].
    unfold focus_effects. rewrite filter_app. cbn. rewrite app_nil_r. auto.
Qed.

Lemma focus_idempotent_witness :
  fst (focus desk game_in_front) = Return tt /\
  focus_effects (events (snd (focus desk game_in_front))) =
    focus_effects (events game_in_front) /\
  events (snd (focus desk game_in_front)) = events game_in_front ++ [].
Proof.
  apply (focus_idempotent Desk desk game_in_front). reflexivity.
Defined.

(** C7, at a failing input.  Thread input cannot be attached, on the first
    attempt and on the retry.  The first failure removes the cached window
    handle; the retry fails before the handle is looked up again, so that
    removing it a second time raises [AttributeError], and that is what the
    caller gets in place of the error of the operating system. *)
Theorem focus_retry_failure_masks_os_error :
  fst (focus desk (start attach_refused)) = Raise (AttributeError "window_handle") /\
  fst (AttachThreadInput desk 1 9 true attach_refused) = Raise (OSError 87) /\
  events (snd (focus desk (start attach_refused))) =
    [EvFindWindow "Metin2"; EvPress "alt" true; EvGetWindowThread 200;
     EvAttach 1 9 true; EvSleep 100; EvPress "alt" true; EvAttach 1 9 true].
Proof. repeat split. Qed.

(** When the retry fails in [SetForegroundWindow], after the window handle has
    been looked up again, the error of the operating system does reach the
    caller. *)
Example focus_retry_set_foreground_failure :
  fst (focus desk (start foreground_locked)) = Raise (OSError 0) /\
  events (snd (focus desk (start foreground_locked))) =
    [EvFindWindow "Metin2"; EvPress "alt" true; EvGetWindowThread 200;
     EvAttach 1 9 true; EvSetForeground 200; EvSleep 100; EvPress "alt" true;
     EvAttach 1 9 true; EvFindWindow "Metin2"; EvSetForeground 200; EvSleep 100].
Proof. split; reflexivity. Qed.

(** [focus] makes at most two attempts. *)
Lemma focus_attempts_at_most_twice (W : Type) (os : Win32 W) (s : fstate W) :
  exists evs,
    events (snd (focus os s)) = events s ++ evs /\
    (List.length (filter is_press evs) <= 2)%nat.
Proof.
  unfold_focus. unfold_py.
  split_run;
    first [ congruence
          | eexists; split;
            [rewrite <- ?app_assoc; cbn [app]; try reflexivity; symmetry; apply app_nil_r
            |cbn; lia]
          ].
Qed.

(** A [focus] that returns leaves the window handle cached. *)
Lemma focus_returns_with_handle_cached (W : Type) (os : Win32 W) (s : fstate W) :
  fst (focus os s) = Return tt ->
  window_handle_cache (self (snd (focus os s))) <> None.
Proof.
  unfold_focus. unfold_py.
  split_run; cbn [fst snd self window_handle_cache set_window_handle_cache];
    intros Hret; try discriminate Hret; congruence.
Qed.

(** C8, as stated, fails: a detach that raises and a key press that raises
    both reach the caller of [focus_back_to_last_window]. *)
Lemma focus_back_detach_failure_propagates :
  fst (focus_back_to_last_window desk (restore_state [] [false] [])) =
    Raise (OSError 87) /\
  fst (focus_back_to_last_window desk (restore_state [false] [] [])) =
    Raise (OSError 1).
Proof. split; reflexivity. Qed.

(** A key press that raises leaves [focus_back_to_last_window]. *)
Lemma focus_back_press_failure (W : Type) (os : Win32 W) (s s1 : fstate W) (h : Z) (e : exn) :
  window_handle os s = (Return h, s1) ->
  differs (last_window_handle (self s)) h = true ->
  fst (press_and_release os "alt" false (world s1)) = Raise e ->
  fst (focus_back_to_last_window os s) = Raise e.
Proof.
  intros Hwh Hd Hp.
  unfold focus_back_to_last_window. unfold Py.bind at 1, Py.get. unfold Py.bind at 1.
  rewrite Hwh, Hd. unfold Py.bind at 1, os_call, Py.bind at 1, emit, Py.modify.
  cbn [world]. destruct (press_and_release os "alt" false (world s1)) as [r w'].
  cbn [fst] in Hp. subst r. reflexivity.
Qed.

(** A detach that raises leaves [focus_back_to_last_window]. *)
Lemma focus_back_detach_failure (W : Type) (os : Win32 W) (s s1 s2 s3 : fstate W)
      (h tid t0 : Z) (e : exn) :
  window_handle os s = (Return h, s1) ->
  differs (last_window_handle (self s)) h = true ->
  os_call W (EvPress "alt" false) (press_and_release os "alt" false) s1 = (Return tt, s2) ->
  thread_id os s2 = (Return tid, s3) ->
  last_window_thread_id (self s) = Some t0 ->
  fst (AttachThreadInput os t0 tid false (world s3)) = Raise e ->
  fst (focus_back_to_last_window os s) = Raise e.
Proof.
  intros Hwh Hd Hp Ht Hl Ha.
  unfold focus_back_to_last_window. unfold Py.bind at 1, Py.get. unfold Py.bind at 1.
  rewrite Hwh, Hd. unfold Py.bind at 1. rewrite Hp.
  unfold Py.bind at 1. rewrite Ht. rewrite Hl. cbn [as_int].
  unfold Py.bind at 1, Py.ret. unfold Py.bind at 1, os_call, Py.bind at 1, emit, Py.modify.
  cbn [world]. destruct (AttachThreadInput os t0 tid false (world s3)) as [r w'].
  cbn [fst] in Ha. subst r. reflexivity.
Qed.

(** C8, as the code has it.  Only the failure of setting the foreground window
    to the snapshot is swallowed: the outcome of
    [focus_back_to_last_window] does not depend on what
    [SetForegroundWindow] does, and when the window lookups, the key press and
    the detach do not raise, the call returns normally.  A key press that
    raises and a detach that raises are not handled: whenever the call gets to
    one of them, the error it raises is what the caller receives. *)
Theorem focus_back_swallows_set_foreground (W : Type) (os : Win32 W) (s : fstate W) :
  (forall f : Z -> Py.M W unit,
      fst (focus_back_to_last_window (with_SetForegroundWindow os f) s) =
      fst (focus_back_to_last_window os s)) /\
  ((forall title w, raises (fst (FindWindow os title w)) = false) ->
   (forall h w, raises (fst (GetWindowThreadProcessId os h w)) = false) ->
   (forall key precise w, raises (fst (press_and_release os key precise w)) = false) ->
   (forall a b c w, raises (fst (AttachThreadInput os a b c w)) = false) ->
   last_window_thread_id (self s) <> None ->
   fst (focus_back_to_last_window os s) = Return tt) /\
  (forall (h : Z) (s1 : fstate W) (e : exn),
      window_handle os s = (Return h, s1) ->
      differs (last_window_handle (self s)) h = true ->
      fst (press_and_release os "alt" false (world s1)) = Raise e ->
      fst (focus_back_to_last_window os s) = Raise e) /\
  (forall (h tid t0 : Z) (s1 s2 s3 : fstate W) (e : exn),
      window_handle os s = (Return h, s1) ->
      differs (last_window_handle (self s)) h = true ->
      os_call W (EvPress "alt" false) (press_and_release os "alt" false) s1 =
        (Return tt, s2) ->
      thread_id os s2 = (Return tid, s3) ->
      last_window_thread_id (self s) = Some t0 ->
      fst (AttachThreadInput os t0 tid false (world s3)) = Raise e ->
      fst (focus_back_to_last_window os s) = Raise e).
Proof.
  split; [|split; [|split]].
  - intros f. unfold_focus. unfold_py.
    cbn [with_SetForegroundWindow FindWindow GetWindowThreadProcessId AttachThreadInput
         SetForegroundWindow press_and_release].
    split_run; units; reflexivity.
  - intros Hfind Hgw Hpress Hatt Hsnap. unfold_focus. unfold_py.
    split_run; units; try reflexivity; try congruence;
      repeat match goal with
        | H : FindWindow os ?a ?w = (Raise _, _) |- _ =>
            specialize (Hfind a w); rewrite H in Hfind; discriminate
        | H : GetWindowThreadProcessId os ?a ?w = (Raise _, _) |- _ =>
            specialize (Hgw a w); rewrite H in Hgw; discriminate
        | H : press_and_release os ?a ?b ?w = (Raise _, _) |- _ =>
            specialize (Hpress a b w); rewrite H in Hpress; discriminate
        | H : AttachThreadInput os ?a ?b ?c ?w = (Raise _, _) |- _ =>
            specialize (Hatt a b c w); rewrite H in Hatt; discriminate
        end.
  - intros h s1 e. apply focus_back_press_failure.
  - intros h tid t0 s1 s2 s3 e. apply focus_back_detach_failure.
Qed.

Lemma focus_back_swallows_set_foreground_witness :
  (fst (SetForegroundWindow calm_desk 100 (world (restore_state [] [] [false]))) =
     Raise (OSError 0) /\
   fst (focus_back_to_last_window calm_desk (restore_state [] [] [false])) = Return tt) /\
  fst (focus_back_to_last_window desk (restore_state [false] [] [])) = Raise (OSError 1) /\
  fst (focus_back_to_last_window desk (restore_state [] [false] [])) = Raise (OSError 87).
Proof.
  split; [split; [reflexivity|]|split].
  - apply (proj1 (proj2 (focus_back_swallows_set_foreground Desk calm_desk
                           (restore_state [] [] [false])))).
    + intros title w. reflexivity.
    + intros h w. reflexivity.
    + intros key precise w. reflexivity.
    + intros a b c w. reflexivity.
    + discriminate.
  - eapply (proj1 (proj2 (proj2 (focus_back_swallows_set_foreground Desk desk
                                   (restore_state [false] [] []))))); reflexivity.
  - eapply (proj2 (proj2 (proj2 (focus_back_swallows_set_foreground Desk desk
                                   (restore_state [] [false] []))))); reflexivity.
Defined.

(** C9, as stated, fails: the editor's window 100 is owned by thread 7, and the
    snapshot [focus] takes holds thread 1, the thread that called [focus]. *)
Lemma focus_snapshot_holds_calling_thread :
  last_window_handle (self (snd (focus desk (start editor_in_front)))) = Some 100 /\
  fst (GetWindowThreadProcessId desk 100 editor_in_front) = Return (7, 0) /\
  last_window_thread_id (self (snd (focus desk (start editor_in_front)))) = Some 1 /\
  GetCurrentThreadId desk editor_in_front = 1.
Proof. repeat split. Qed.

Lemma focus_takes_snapshot (W : Type) (os : Win32 W) (s : fstate W) :
  last_window_handle (self (snd (focus os s))) = Some (GetForegroundWindow os (world s)) /\
  last_window_thread_id (self (snd (focus os s))) = Some (GetCurrentThreadId os (world s)).
Proof.
  unfold_focus. unfold_py. split_run; split; reflexivity.
Qed.

Lemma focus_back_events_use_snapshot (W : Type) (os : Win32 W) (s : fstate W)
      (h0 t0 : Z) :
  last_window_handle (self s) = Some h0 ->
  last_window_thread_id (self s) = Some t0 ->
  exists evs,
    events (snd (focus_back_to_last_window os s)) = events s ++ evs /\
    forallb (uses_snapshot h0 t0) evs = true.
Proof.
  intros Hh Ht. unfold_focus. unfold_py. rewrite !Hh, !Ht.
  split_run;
    (eexists; split;
     [rewrite <- ?app_assoc; cbn [app]; try reflexivity; symmetry; apply app_nil_r
     |cbn; rewrite ?Z.eqb_refl; reflexivity]).
Qed.

Lemma focus_back_restores_snapshot (W : Type) (os : Win32 W) (s : fstate W)
      (h0 t0 h : Z) :
  last_window_handle (self s) = Some h0 ->
  last_window_thread_id (self s) = Some t0 ->
  target_window os s = Return h ->
  h <> h0 ->
  fst (focus_back_to_last_window os s) = Return tt ->
  In (EvSetForeground h0) (events (snd (focus_back_to_last_window os s))) /\
  exists tid, In (EvAttach t0 tid false) (events (snd (focus_back_to_last_window os s))).
Proof.
  intros Hh Ht Htarget Hne. unfold target_window in Htarget.
  unfold_focus. unfold_py. rewrite !Hh, !Ht.
  split_run; cbn [fst snd events] in *; intros Hret; try discriminate Hret;
    try (exfalso; inversion Htarget; subst;
         match goal with
         | Hb : negb (_ =? _) = false |- _ =>
             apply Bool.negb_false_iff, Z.eqb_eq in Hb; congruence
         end);
    (split; [|eexists]; rewrite ?in_app_iff; cbn; eauto 10).
Qed.

(** C9, as the code has it.  [focus] begins by recording the snapshot: the
    window that is in the foreground when it is called, and the id of the
    calling thread.  [focus_back_to_last_window] consumes that pair: every
    foreground change it requests is to the snapshot window, every thread-input
    call it makes is a detach naming the snapshot thread, and a restore that
    returns for a target other than the snapshot window has made both. *)
Theorem focus_snapshot_captured_and_consumed (W : Type) (os : Win32 W) :
  (forall s : fstate W,
      last_window_handle (self (snd (focus os s))) =
        Some (GetForegroundWindow os (world s)) /\
      last_window_thread_id (self (snd (focus os s))) =
        Some (GetCurrentThreadId os (world s))) /\
  (forall (s : fstate W) (h0 t0 : Z),
      last_window_handle (self s) = Some h0 ->
      last_window_thread_id (self s) = Some t0 ->
      (exists evs,
          events (snd (focus_back_to_last_window os s)) = events s ++ evs /\
          forallb (uses_snapshot h0 t0) evs = true) /\
      (forall h,
          target_window os s = Return h ->
          h <> h0 ->
          fst (focus_back_to_last_window os s) = Return tt ->
          In (EvSetForeground h0) (events (snd (focus_back_to_last_window os s))) /\
          exists tid,
            In (EvAttach t0 tid false)
               (events (snd (focus_back_to_last_window os s))))).
Proof.
  split.
  - intros s. apply focus_takes_snapshot.
  - intros s h0 t0 Hh Ht. split.
    + now apply focus_back_events_use_snapshot.
    + intros h Htarget Hne Hret. now apply (focus_back_restores_snapshot W os s h0 t0 h).
Qed.

Lemma focus_snapshot_captured_and_consumed_witness :
  last_window_handle (self game_in_front) = Some 100 /\
  last_window_thread_id (self game_in_front) = Some 1 /\
  In (EvSetForeground 100)
     (events (snd (focus_back_to_last_window desk game_in_front))) /\
  exists tid,
    In (EvAttach 1 tid false)
       (events (snd (focus_back_to_last_window desk game_in_front))).
Proof.
  split; [reflexivity|]. split; [reflexivity|].
  apply (proj2 (proj2 (focus_snapshot_captured_and_consumed Desk desk)
                      game_in_front 100 1 eq_refl eq_refl) 200).
  - reflexivity.
  - discriminate.
  - reflexivity.
Defined.

(** * Further properties *)

(** ** [read_memory]: ranges, the returned pair, malformed offsets *)

Lemma data_after_in_range (t : Target) (size : nat) (before addr : Z) :
  0 <= before < 256 ^ Z.of_nat size ->
  0 <= data_after t size before addr < 256 ^ Z.of_nat size.
Proof.
  intros Hb. unfold data_after.
  destruct (kernel_read t addr size) as [v|] eqn:E; [|exact Hb].
  eapply kernel_read_unsigned; eauto.
Qed.

Lemma chain_loop_data_in_range (t : Target) (size : nat) :
  forall offsets current s,
    0 <= data s < 256 ^ Z.of_nat size ->
    0 <= data (snd (chain_loop t size offsets current s)) < 256 ^ Z.of_nat size.
Proof.
  induction offsets as [|o rest IH]; intros current s Hs; [exact Hs|].
  rewrite chain_loop_cons.
  destruct (offset_value o) as [z|e]; [|exact Hs].
  destruct (ctypes_int current); [|exact Hs].
  apply IH. cbn [data].
  apply (data_after_in_range t size (data s) current Hs).
Qed.

(** X1. The value [read_memory] returns is an unsigned number of the requested
    width, eight or thirty-two bits, whether the reads succeeded or not. *)
Theorem read_memory_value_in_range (t : Target) (address : Z)
        (offsets : option (list offset)) (byte : bool) (a v : Z) :
  fst (read_memory t address offsets byte) = Return (a, v) ->
  0 <= v < (if byte then 256 else 4294967296).
Proof.
  assert (Hz : 0 <= 0 < 256 ^ Z.of_nat (sizeof_data byte)) by (destruct byte; cbn; lia).
  assert (Hw : 256 ^ Z.of_nat (sizeof_data byte) = if byte then 256 else 4294967296)
    by (destruct byte; reflexivity).
  rewrite <- Hw. destruct (truthy offsets) eqn:Ht.
  - destruct offsets as [[|o rest]|]; try discriminate.
    rewrite read_memory_chain_run by discriminate.
    pose proof (chain_loop_data_in_range t (sizeof_data byte) (o :: rest) address
                  {| data := 0; reads := [] |} Hz) as Hr.
    destruct (chain_loop t (sizeof_data byte) (o :: rest) address _) as [[final|e] s'];
      cbn [fst snd] in *; intros H; inversion H; subst. exact Hr.
  - rewrite read_memory_single_run by exact Ht.
    destruct (ctypes_int address); cbn [fst]; intros H; inversion H; subst.
    now apply data_after_in_range.
Qed.

Lemma read_memory_value_in_range_witness :
  0 <= 6291456 < 4294967296.
Proof.
  apply (read_memory_value_in_range two_step_ram 4194320
           (Some [OInt 24; OStr "0x4"; OInt 1]) false 6291457 6291456).
  reflexivity.
Defined.

Lemma chain_loop_final_address (t : Target) (size : nat) :
  forall rest o current s final s',
    chain_loop t size (o :: rest) current s = (Return final, s') ->
    exists z, offset_value (last rest o) = Return z /\ final = data s' + z.
Proof.
  induction rest as [|o' rest IH]; intros o current s final s' H;
    rewrite chain_loop_cons in H;
    destruct (offset_value o) as [z|e] eqn:Ho; try discriminate H;
    destruct (ctypes_int current); try discriminate H.
  - cbn [chain_loop] in H. unfold Py.ret in H. inversion H; subst.
    exists z. split; [exact Ho|reflexivity].
  - apply IH in H. destruct H as (z' & Hz' & Hf). exists z'. split; [|exact Hf].
    rewrite last_cons_default. exact Hz'.
Qed.

(** X2. For a chain, the address [read_memory] returns is the value it returns
    plus the last offset of the chain, also when reads failed on the way. *)
Theorem read_memory_address_is_value_plus_offset (t : Target) (address : Z)
        (o : offset) (rest : list offset) (byte : bool) (a v : Z) :
  fst (read_memory t address (Some (o :: rest)) byte) = Return (a, v) ->
  exists z, offset_value (last rest o) = Return z /\ a = v + z.
Proof.
  rewrite read_memory_chain_run by discriminate.
  destruct (chain_loop t (sizeof_data byte) (o :: rest) address _) as [[final|e] s'] eqn:E;
    cbn [fst]; intros H; inversion H; subst.
  exact (chain_loop_final_address t _ rest o address _ a s' E).
Qed.

Lemma read_memory_address_is_value_plus_offset_witness :
  exists z, offset_value (last [OStr "0x4"; OInt 1] (OInt 24)) = Return z /\
            6291457 = 6291456 + z.
Proof.
  apply (read_memory_address_is_value_plus_offset two_step_ram 4194320
           (OInt 24) [OStr "0x4"; OInt 1] false 6291457 6291456).
  reflexivity.
Defined.

Lemma int_base16_raises (lit : string) :
  raises (int_base16 lit) = true -> int_base16 lit = Raise (ValueError lit).
Proof.
  unfold int_base16.
  destruct (match lstrip lit with
            | String "-" t' => option_map Z.opp (parse_unsigned t')
            | String "+" t' => parse_unsigned t'
            | _ => parse_unsigned (lstrip lit)
            end); [discriminate|reflexivity].
Qed.

(** A loop that completes has issued one read for each offset. *)
Lemma chain_loop_returns_reads (t : Target) (size : nat) :
  forall offsets current s,
    raises (fst (chain_loop t size offsets current s)) = false ->
    List.length (reads (snd (chain_loop t size offsets current s))) =
      (List.length (reads s) + List.length offsets)%nat.
Proof.
  induction offsets as [|o rest IH]; intros current s Hr.
  - cbn. lia.
  - rewrite chain_loop_cons in *.
    destruct (offset_value o) as [z|e]; [|discriminate Hr].
    destruct (ctypes_int current); [|discriminate Hr].
    rewrite (IH _ _ Hr). cbn [reads List.length]. rewrite length_app. simpl. lia.
Qed.

(** A loop over [pre] followed by a malformed literal does what the loop over
    [pre] does, and raises for the literal if it gets there. *)
Lemma chain_loop_malformed (t : Target) (size : nat) (lit : string) (post : list offset) :
  raises (int_base16 lit) = true ->
  forall pre current s,
    chain_loop t size (pre ++ OStr lit :: post) current s =
      (match fst (chain_loop t size pre current s) with
       | Return _ => Raise (ValueError lit)
       | Raise e => Raise e
       end,
       snd (chain_loop t size pre current s)).
Proof.
  intros Hbad. apply int_base16_raises in Hbad.
  induction pre as [|o pre IH]; intros current s.
  - cbn [app]. rewrite chain_loop_cons. cbn [offset_value]. rewrite Hbad. reflexivity.
  - cbn [app]. rewrite !chain_loop_cons.
    destruct (offset_value o) as [z|e]; [|reflexivity].
    destruct (ctypes_int current); [apply IH|reflexivity].
Qed.

(** X3. A string offset of ASCII text that is not a hexadecimal literal makes
    [read_memory] raise [ValueError] for that string when the loop reaches it,
    that is, when the loop over the offsets before it completes: the reads for
    those offsets have been issued, one for each, and none after.  When the
    loop does not get that far the call ends as the loop over the offsets
    before the literal does. *)
Theorem read_memory_malformed_offset (t : Target) (address : Z) (byte : bool)
        (pre post : list offset) (lit : string) :
  is_ascii_text lit = true ->
  raises (int_base16 lit) = true ->
  snd (read_memory t address (Some (pre ++ OStr lit :: post)) byte) =
    reads (snd (chain_loop t (sizeof_data byte) pre address {| data := 0; reads := [] |})) /\
  match fst (chain_loop t (sizeof_data byte) pre address {| data := 0; reads := [] |}) with
  | Return _ =>
      fst (read_memory t address (Some (pre ++ OStr lit :: post)) byte) =
        Raise (ValueError lit) /\
      List.length (snd (read_memory t address (Some (pre ++ OStr lit :: post)) byte)) =
        List.length pre
  | Raise e =>
      fst (read_memory t address (Some (pre ++ OStr lit :: post)) byte) = Raise e
  end.
Proof.
  intros _ Hbad.
  rewrite read_memory_chain_run by (destruct pre; discriminate).
  rewrite (chain_loop_malformed t (sizeof_data byte) lit post Hbad pre address).
  pose proof (chain_loop_returns_reads t (sizeof_data byte) pre address
                {| data := 0; reads := [] |}) as Hlen.
  destruct (chain_loop t (sizeof_data byte) pre address _) as [[final|e] s'];
    cbn [fst snd] in *.
  - split; [reflexivity|]. split; [reflexivity|]. exact (Hlen eq_refl).
  - split; reflexivity.
Qed.

Lemma read_memory_malformed_offset_witness :
  fst (read_memory two_step_ram 4194320 (Some ([OInt 24] ++ OStr "0x1g" :: [OInt 1])) false) =
    Raise (ValueError "0x1g") /\
  List.length (snd (read_memory two_step_ram 4194320
                                (Some ([OInt 24] ++ OStr "0x1g" :: [OInt 1])) false)) = 1%nat.
Proof.
  exact (proj2 (read_memory_malformed_offset two_step_ram 4194320 false
                  [OInt 24] [OInt 1] "0x1g" eq_refl eq_refl)).
Defined.

(** ** The read handle *)

Lemma process_handle_run (k : Kernel) (process_id : Z) (s : call_state) :
  process_handle k process_id s =
    (Return (handle_in k process_id (object s)),
     {| object :=
          {| process_handle_cache := Some (handle_in k process_id (object s));
             open_calls := open_calls (object s) ++
                           match process_handle_cache (object s) with
                           | Some _ => []
                           | None => [process_id]
                           end;
             close_calls := close_calls (object s) |};
        buffer := buffer s |}).
Proof.
  unfold process_handle, handle_in, Py.bind, Py.get, Py.modify, Py.ret.
  destruct s as [[c op cl] b]. cbn. destruct c as [h|]; cbn.
  - now rewrite app_nil_r.
  - reflexivity.
Qed.

Lemma touched_idem (k : Kernel) (process_id : Z) (o : handle_state) :
  touched k process_id (touched k process_id o) = touched k process_id o.
Proof. unfold touched, handle_in. cbn. now rewrite app_nil_r. Qed.

Lemma handle_in_touched (k : Kernel) (process_id : Z) (o : handle_state) :
  handle_in k process_id (touched k process_id o) = handle_in k process_id o.
Proof. reflexivity. Qed.

Lemma read_through_handle_run (k : Kernel) (process_id addr : Z) (size : nat)
      (o : handle_state) (b : rm_state) :
  read_through_handle k process_id addr size {| object := o; buffer := b |} =
    (fst (read_into_data (target_of k (handle_in k process_id o)) addr size b),
     {| object := touched k process_id o;
        buffer := snd (read_into_data (target_of k (handle_in k process_id o)) addr size b) |}).
Proof.
  unfold read_through_handle, Py.bind. rewrite process_handle_run. cbn [buffer object].
  destruct (read_into_data (target_of k (handle_in k process_id o)) addr size b).
  reflexivity.
Qed.

Lemma chain_loop_self_run (k : Kernel) (process_id : Z) (size : nat) :
  forall offsets current o b,
    chain_loop_self k process_id size offsets current {| object := o; buffer := b |} =
      (fst (chain_loop (target_of k (handle_in k process_id o)) size offsets current b),
       {| object := if issues_read offsets then touched k process_id o else o;
          buffer := snd (chain_loop (target_of k (handle_in k process_id o)) size
                                    offsets current b) |}).
Proof.
  induction offsets as [|o1 rest IH]; intros current o b; [reflexivity|].
  rewrite chain_loop_cons.
  cbn [chain_loop_self issues_read]. unfold Py.bind at 1, Py.lift.
  destruct (offset_value o1) as [z|e]; [|reflexivity]. cbn [raises negb].
  unfold Py.bind at 1. rewrite read_through_handle_run, read_into_data_run.
  destruct (ctypes_int current); cbn [fst snd]; [|reflexivity].
  unfold Py.bind at 1, Py.get. cbn [buffer data].
  rewrite IH. rewrite handle_in_touched, touched_idem.
  f_equal. f_equal. now destruct (issues_read rest).
Qed.

Lemma read_memory_self_run (k : Kernel) (process_id address : Z)
        (offsets : option (list offset)) (byte : bool) (o : handle_state) :
  read_memory_self k process_id address offsets byte o =
    (read_memory (target_of k (handle_in k process_id o)) address offsets byte,
     if call_issues_read offsets then touched k process_id o else o).
Proof.
  unfold read_memory_self, read_memory_self_m, read_memory, read_memory_m, call_issues_read.
  destruct (truthy offsets) eqn:Ht.
  - unfold Py.bind at 1 3. rewrite chain_loop_self_run.
    destruct (chain_loop (target_of k (handle_in k process_id o)) (sizeof_data byte) _ address _)
      as [[final|e] b']; reflexivity.
  - unfold Py.bind at 1 5. unfold Py.bind at 1 3.
    rewrite read_through_handle_run, read_into_data_run.
    destruct (ctypes_int address); reflexivity.
Qed.

(** X5. [read_memory] on the object gives what [read_memory] gives on the memory
    behind the object's handle.  The handle is obtained when the first read
    call is reached and kept from then on; a call that raises before it
    reaches a read call leaves the object as it was. *)
Theorem read_memory_self_through_handle (k : Kernel) (process_id address : Z)
        (offsets : option (list offset)) (byte : bool) (o : handle_state) :
  fst (read_memory_self k process_id address offsets byte o) =
    read_memory (target_of k (handle_in k process_id o)) address offsets byte /\
  snd (read_memory_self k process_id address offsets byte o) =
    (if call_issues_read offsets then touched k process_id o else o).
Proof.
  rewrite read_memory_self_run. split; reflexivity.
Qed.

Lemma read_memory_self_states (k : Kernel) (process_id address : Z)
      (offsets : option (list offset)) (byte : bool) (o : handle_state) :
  snd (read_memory_self k process_id address offsets byte o) = o \/
  snd (read_memory_self k process_id address offsets byte o) = touched k process_id o.
Proof.
  rewrite read_memory_self_run. cbn [snd].
  destruct (call_issues_read offsets); auto.
Qed.

Lemma after_calls_states (k : Kernel) (process_id : Z) (calls : list read_call) :
  forall o,
    after_calls k process_id calls o = o \/
    after_calls k process_id calls o = touched k process_id o.
Proof.
  induction calls as [|[[address offsets] byte] rest IH]; intros o; [now left|].
  cbn [after_calls].
  destruct (read_memory_self_states k process_id address offsets byte o) as [-> | ->].
  - apply IH.
  - destruct (IH (touched k process_id o)) as [-> | ->]; [now right|].
    right. apply touched_idem.
Qed.

Lemma Process_del_run (k : Kernel) (process_id : Z) (o : handle_state) :
  Process_del k process_id o =
    {| process_handle_cache := Some (handle_in k process_id o);
       open_calls := open_calls (touched k process_id o);
       close_calls := close_calls o ++
                      if handle_in k process_id o =? 0 then []
                      else [handle_in k process_id o] |}.
Proof.
  unfold Process_del, Py.bind. rewrite process_handle_run. cbn [object buffer].
  destruct (handle_in k process_id o =? 0) eqn:E; cbn [negb].
  - unfold Py.ret, touched. now rewrite app_nil_r.
  - rewrite process_handle_run. unfold Py.modify, touched, handle_in.
    cbn [object process_handle_cache open_calls close_calls]. now rewrite app_nil_r.
Qed.

(** X6. Over the life of an object, whatever calls of [read_memory] are made and
    however they end, [OpenProcess] is called exactly once, and [CloseHandle]
    once, on the handle obtained, unless that handle is zero, in which case
    nothing is closed.  An object on which nothing was ever read opens the
    process in [__del__], to close it at once. *)
Theorem process_handle_opened_once_closed_once (k : Kernel) (process_id : Z)
        (calls : list read_call) :
  open_calls (whole_life k process_id calls) = [process_id] /\
  close_calls (whole_life k process_id calls) =
    (if OpenProcess_vm_read k process_id =? 0 then []
     else [OpenProcess_vm_read k process_id]).
Proof.
  unfold whole_life. rewrite Process_del_run.
  destruct (after_calls_states k process_id calls fresh_handle_state) as [-> | ->];
    cbn; split; reflexivity.
Qed.

Lemma chain_loop_invalid_handle (t : Target) (size : nat) :
  handle_valid t = false ->
  forall offsets zs current s,
    chain_values offsets = Some zs ->
    data s = 0 ->
    forallb ctypes_int (current :: removelast zs) = true ->
    fst (chain_loop t size offsets current s) = Return (last zs current) /\
    data (snd (chain_loop t size offsets current s)) = 0.
Proof.
  intros Hv. induction offsets as [|o rest IH]; intros zs current s Hzs Hd Hc.
  - simpl in Hzs. inversion Hzs; subst. cbn. auto.
  - pose proof (chain_values_length _ _ Hzs) as Hlen. simpl in Hzs.
    destruct (offset_value o) as [z|] eqn:Ho; [|discriminate].
    destruct (chain_values rest) as [zs'|] eqn:Hr; [|discriminate].
    inversion Hzs; subst zs; clear Hzs.
    rewrite chain_loop_cons, Ho.
    assert (Hcur : ctypes_int current = true)
      by (cbn [forallb] in Hc; now apply andb_true_iff in Hc).
    rewrite Hcur.
    assert (Hda : data_after t size (data s) current = 0)
      by (unfold data_after, kernel_read; now rewrite Hv).
    rewrite Hda, Z.add_0_l. rewrite last_cons_default.
    destruct zs' as [|z' zs'].
    + destruct rest; [|discriminate Hlen]. cbn. auto.
    + apply IH; [reflexivity|reflexivity|].
      change (removelast (z :: z' :: zs')) with (z :: removelast (z' :: zs')) in Hc.
      cbn [forallb] in Hc. apply andb_true_iff in Hc. exact (proj2 Hc).
Qed.

(** X4. Through a handle that is not valid every read fails, and when the
    addresses of the reads convert to C integers [read_memory] still returns:
    the value is zero, and the address is the last offset of the chain, or the
    given address when there is no chain.  The addresses read are the given
    one and the offsets but the last. *)
Theorem read_memory_invalid_handle (t : Target) (address : Z)
        (offsets : option (list offset)) (zs : list Z) (byte : bool) :
  handle_valid t = false ->
  chain_values (match offsets with Some l => l | None => [] end) = Some zs ->
  forallb ctypes_int (address :: removelast zs) = true ->
  fst (read_memory t address offsets byte) = Return (last zs address, 0).
Proof.
  intros Hv Hzs Hc. destruct (truthy offsets) eqn:Ht.
  - destruct offsets as [[|o rest]|]; try discriminate.
    rewrite read_memory_chain_run by discriminate.
    destruct (chain_loop_invalid_handle t (sizeof_data byte) Hv (o :: rest) zs address
                {| data := 0; reads := [] |} Hzs eq_refl Hc) as (Hf & Hd).
    destruct (chain_loop t (sizeof_data byte) (o :: rest) address _) as [[final|e] s'];
      cbn [fst snd] in *; [|discriminate Hf]. inversion Hf; subst. now rewrite Hd.
  - rewrite read_memory_single_run by exact Ht.
    assert (Hcur : ctypes_int address = true)
      by (cbn [forallb] in Hc; now apply andb_true_iff in Hc).
    rewrite Hcur. cbn [fst].
    unfold data_after, kernel_read. rewrite Hv.
    destruct offsets as [[|]|]; try discriminate; cbn in Hzs; inversion Hzs; reflexivity.
Qed.

Lemma read_memory_invalid_handle_witness :
  fst (read_memory closed_target 4194320 (Some [OInt 24; OStr "0x4"]) false) =
    Return (4, 0).
Proof.
  apply (read_memory_invalid_handle closed_target 4194320
           (Some [OInt 24; OStr "0x4"]) [24; 4] false); reflexivity.
Defined.

(** ** [get_by_name]: query handles, the empty search string *)

(** Whatever a round of the loop ends in, it has closed the handle it opened. *)
Lemma visit_process_closed (casefold : string -> string) (d : Discovery)
      (search title : string) (pid0 : Z) (closed : closed_handles) :
  snd (visit_process casefold d search title pid0 closed) =
    closed ++ handles_of d (real_pids [pid0]) /\
  (forall p, fst (visit_process casefold d search title pid0 closed) = Return (Some p) ->
             process_id p = pid0) /\
  (forall e, fst (visit_process casefold d search title pid0 closed) = Raise e ->
             In (Broken e) (modules_of d pid0)).
Proof.
  unfold visit_process, modules_of. cbn [real_pids filter].
  destruct (Z.eqb_spec pid0 (-1)) as [->|Hne]; cbn [negb handles_of flat_map].
  - rewrite app_nil_r. repeat split; cbn; intros; discriminate.
  - destruct (OpenProcess d pid0) as [handle|e0]; cbn [app].
    + unfold Py.finally, Py.bind at 1 2 3, Py.lift at 1 3 5.
      destruct (EnumProcessModules d handle) as [bases|e].
      * unfold Py.bind, Py.lift, Py.ret.
        pose proof (first_module_find casefold d search pid0 handle bases) as Hf.
        destruct (first_module casefold d search handle bases) as [found|e] eqn:Ef.
        -- repeat split.
           ++ destruct (handle =? 0); unfold CloseHandle, Py.modify; cbn [snd];
                rewrite ?app_nil_r; reflexivity.
           ++ intros p Hp. destruct found; destruct (handle =? 0); cbn in Hp;
                inversion Hp; reflexivity.
           ++ intros e He. destruct (handle =? 0); discriminate He.
        -- repeat split.
           ++ destruct (handle =? 0); unfold CloseHandle, Py.modify; cbn [snd];
                rewrite ?app_nil_r; reflexivity.
           ++ intros p Hp. destruct (handle =? 0); discriminate Hp.
           ++ intros e' He'.
              assert (e' = e) by (destruct (handle =? 0); cbn in He'; now inversion He').
              subst e'.
              destruct (find (decides casefold search) (map (module_entry d pid0 handle) bases))
                as [[p base path|e1]|] eqn:E; try (destruct Hf; discriminate);
                try discriminate Hf.
              inversion Hf; subst. exact (proj1 (find_some _ _ E)).
      * repeat split.
        -- destruct (handle =? 0); unfold CloseHandle, Py.modify; cbn [snd];
             rewrite ?app_nil_r; reflexivity.
        -- intros p Hp. destruct (handle =? 0); discriminate Hp.
        -- intros e' He'.
           assert (e' = e) by (destruct (handle =? 0); cbn in He'; now inversion He').
           subst e'. now left.
    + rewrite app_nil_r. repeat split; cbn; intros; discriminate.
Qed.

Lemma real_pids_app (l1 l2 : list Z) :
  real_pids (l1 ++ l2) = real_pids l1 ++ real_pids l2.
Proof. unfold real_pids. apply filter_app. Qed.

Lemma get_by_name_loop_handles (casefold : string -> string) (d : Discovery)
      (search title : string) :
  forall pids closed,
    match get_by_name_loop casefold d search title pids closed with
    | (Return p, closed') =>
        exists before after,
          pids = before ++ process_id p :: after /\
          closed' = closed ++ handles_of d (real_pids (before ++ [process_id p]))
    | (Raise e, closed') =>
        (e = not_found search /\ closed' = closed ++ handles_of d (real_pids pids)) \/
        (exists before pid0 after,
            pids = before ++ pid0 :: after /\
            In (Broken e) (modules_of d pid0) /\
            closed' = closed ++ handles_of d (real_pids (before ++ [pid0])))
    end.
Proof.
  induction pids as [|pid0 rest IH]; intros closed.
  - cbn. left. now rewrite app_nil_r.
  - cbn [get_by_name_loop]. unfold Py.bind at 1.
    destruct (visit_process_closed casefold d search title pid0 closed)
      as (Hc & Hpid & Herr).
    destruct (visit_process casefold d search title pid0 closed) as [[r|e] closed1];
      cbn [fst snd] in *; subst closed1.
    + destruct r as [p|].
      * unfold Py.ret. exists [], rest. rewrite (Hpid p eq_refl). split; reflexivity.
      * specialize (IH (closed ++ handles_of d (real_pids [pid0]))).
        destruct (get_by_name_loop casefold d search title rest _) as [[p|e] closed'].
        -- destruct IH as (before & after & -> & ->).
           exists (pid0 :: before), after. split; [reflexivity|].
           change ((pid0 :: before) ++ [process_id p])
             with ([pid0] ++ (before ++ [process_id p])).
           now rewrite (real_pids_app [pid0]), handles_of_app, app_assoc.
        -- destruct IH as [(-> & ->) | (before & pid1 & after & -> & Hin & ->)].
           ++ left. split; [reflexivity|]. change (pid0 :: rest) with ([pid0] ++ rest).
              now rewrite (real_pids_app [pid0]), handles_of_app, app_assoc.
           ++ right. exists (pid0 :: before), pid1, after.
              split; [reflexivity|]. split; [exact Hin|].
              change ((pid0 :: before) ++ [pid1]) with ([pid0] ++ (before ++ [pid1])).
              now rewrite (real_pids_app [pid0]), handles_of_app, app_assoc.
    + right. exists [], pid0, rest. split; [reflexivity|].
      split; [exact (Herr e eq_refl)|reflexivity].
Qed.

(** X7. Every query handle [get_by_name] opens is closed again, in the order of
    the enumeration, however the call ends: on a match the handles of the
    processes up to and including the matching one, and nothing of the
    processes after it; when a module call of a process raises, the handles up
    to and including that process; on the not-found failure the handles of all
    of them. *)
Theorem get_by_name_closes_handles (casefold : string -> string) (d : Discovery)
        (search title : string) :
  match get_by_name casefold d search title with
  | (Return p, closed) =>
      exists before after,
        EnumProcesses d = before ++ process_id p :: after /\
        closed = handles_of d (real_pids (before ++ [process_id p]))
  | (Raise e, closed) =>
      (e = not_found search /\ closed = handles_of d (real_pids (EnumProcesses d))) \/
      (exists before pid0 after,
          EnumProcesses d = before ++ pid0 :: after /\
          In (Broken e) (modules_of d pid0) /\
          closed = handles_of d (real_pids (before ++ [pid0])))
  end.
Proof.
  unfold get_by_name.
  exact (get_by_name_loop_handles casefold d search title (EnumProcesses d) []).
Qed.

Example get_by_name_closes_handles_on_module_error :
  get_by_name casefold_ascii_text guarded_machine "game" "Game Window" =
    (Raise (OSError 299), handles_of guarded_machine (real_pids [0; 8; 12])).
Proof. reflexivity. Qed.

Lemma str_in_empty (hay : string) : str_in EmptyString hay = true.
Proof. destruct hay; reflexivity. Qed.

(** X8. With the empty search string, which case folding leaves empty, every
    module matches: [get_by_name] ends at the first entry of the enumeration.
    If that is a module, the identity returned has its process id and base
    address; if it is a module call that raises, that error leaves the call;
    and if no process has a module, the call fails with the not-found
    error. *)
Theorem get_by_name_empty_name (casefold : string -> string) (d : Discovery)
        (title : string) :
  casefold EmptyString = EmptyString ->
  ~ In (-1) (EnumProcesses d) ->
  match enumeration d with
  | Module pid0 base _ :: _ =>
      exists p,
        fst (get_by_name casefold d EmptyString title) = Return p /\
        process_id p = pid0 /\ base_address p = base
  | Broken e :: _ => fst (get_by_name casefold d EmptyString title) = Raise e
  | [] => fst (get_by_name casefold d EmptyString title) = Raise (not_found EmptyString)
  end.
Proof.
  intros Hcf Hs. unfold get_by_name, enumeration.
  pose proof (get_by_name_loop_spec casefold d EmptyString title (EnumProcesses d) [] Hs) as H.
  destruct (flat_map (modules_of d) (EnumProcesses d)) as [|[pid0 base path|e] ms].
  - cbn [find] in H. now rewrite H.
  - cbn [find decides] in H. unfold path_matches in H.
    rewrite Hcf, str_in_empty in H. eexists. split; [exact H|]. split; reflexivity.
  - cbn [find decides] in H. exact H.
Qed.

Lemma get_by_name_empty_name_witness :
  exists p,
    fst (get_by_name casefold_ascii_text sample_machine EmptyString "Game Window") = Return p /\
    process_id p = 12 /\ base_address p = 65536.
Proof.
  apply (get_by_name_empty_name casefold_ascii_text sample_machine "Game Window").
  - reflexivity.
  - simpl. intros [H|[H|[H|[H|[]]]]]; discriminate.
Defined.

(** ** [kill_by_name]: what is attempted, the list of names *)

Lemma kill_loop_prefix (casefold : string -> string) (names : list string) :
  forall procs s,
    exists rest,
      attempts s ++ map pid (filter (targeted casefold names) procs) =
        attempts (snd (kill_loop casefold (map casefold names) procs s)) ++ rest /\
      (raises (fst (kill_loop casefold (map casefold names) procs s)) = false ->
       rest = []).
Proof.
  induction procs as [|p procs IH]; intros s.
  - exists []. split; reflexivity.
  - rewrite kill_loop_unfold.
    destruct (kill_step_run casefold names p s) as (log & ->).
    cbn [filter].
    assert (Hsplit : attempts s ++ map pid (if targeted casefold names p
                                           then p :: filter (targeted casefold names) procs
                                           else filter (targeted casefold names) procs) =
                     (attempts s ++ (if targeted casefold names p then [pid p] else [])) ++
                     map pid (filter (targeted casefold names) procs)).
    { destruct (targeted casefold names p); cbn [map app].
      - now rewrite <- app_assoc.
      - now rewrite app_nil_r. }
    destruct (passes casefold names p) eqn:Hp.
    + match goal with |- context [kill_loop _ _ procs ?st] =>
        destruct (IH st) as (rest & Ha & Hr) end.
      exists rest. split; [|exact Hr]. rewrite <- Ha. exact Hsplit.
    + destruct (stopping_error_raises casefold names p Hp) as (e & -> & _).
      exists (map pid (filter (targeted casefold names) procs)).
      split; [exact Hsplit|discriminate].
Qed.

(** X9. However [kill_by_name] ends, [kill] has been called on processes asked
    for only, in iteration order and once for each entry of the iteration: the
    process ids attempted are an initial part of the process ids asked for,
    and all of them when the call returns. *)
Theorem kill_by_name_attempts_prefix (casefold : string -> string) (names : list string)
        (process_iter : list proc) :
  exists rest,
    map pid (filter (targeted casefold names) process_iter) =
      attempts (snd (kill_by_name casefold names process_iter)) ++ rest /\
    (raises (fst (kill_by_name casefold names process_iter)) = false -> rest = []).
Proof.
  unfold kill_by_name.
  exact (kill_loop_prefix casefold names process_iter {| attempts := []; debug_log := [] |}).
Qed.

Lemma list_in_iff (x : string) (l : list string) : list_in x l = true <-> In x l.
Proof.
  unfold list_in. rewrite existsb_exists. split.
  - intros (y & Hy & Heq). apply String.eqb_eq in Heq. now subst.
  - intros H. exists x. split; [exact H|apply String.eqb_refl].
Qed.

Lemma kill_loop_same_names (casefold : string -> string) (names1 names2 : list string) :
  (forall x, In x names1 <-> In x names2) ->
  forall procs s,
    kill_loop casefold names1 procs s = kill_loop casefold names2 procs s.
Proof.
  intros Hsame. induction procs as [|p procs IH]; intros s; [reflexivity|].
  rewrite !kill_loop_unfold. unfold kill_step, Py.bind, Py.lift.
  destruct (name p) as [n|e]; [|reflexivity].
  assert (E : list_in (casefold n) names1 = list_in (casefold n) names2).
  { destruct (list_in (casefold n) names1) eqn:E1;
      destruct (list_in (casefold n) names2) eqn:E2; try reflexivity.
    - apply list_in_iff, Hsame, list_in_iff in E1. congruence.
    - apply list_in_iff, Hsame, list_in_iff in E2. congruence. }
  rewrite E.
  match goal with |- match ?step with _ => _ end = _ =>
    destruct step as [[[]|e] s'] end; [apply IH|reflexivity].
Qed.

(** X10. Only which names are requested matters, case folding aside, whatever
    [str.casefold] does to a name: lists whose case-folded names are the same
    up to order and repetition make [kill_by_name] do the same. *)
Theorem kill_by_name_names_as_set (casefold : string -> string)
        (names1 names2 : list string) (process_iter : list proc) :
  (forall x, In x (map casefold names1) <-> In x (map casefold names2)) ->
  kill_by_name casefold names1 process_iter = kill_by_name casefold names2 process_iter.
Proof.
  intros Hsame. unfold kill_by_name. now apply kill_loop_same_names.
Qed.

Lemma kill_by_name_names_as_set_witness :
  kill_by_name casefold_ascii_text ["PATCHER.EXE"; "system"; "Patcher.exe"] sample_processes =
  kill_by_name casefold_ascii_text ["System"; "patcher.exe"] sample_processes.
Proof.
  apply (kill_by_name_names_as_set casefold_ascii_text
           ["PATCHER.EXE"; "system"; "Patcher.exe"]
           ["System"; "patcher.exe"] sample_processes).
  intros x. cbn. tauto.
Defined.

(** ** [focus] and [focus_back_to_last_window]: the caches, the pair *)

(** X13. [focus] re-resolves the window handle after a failed attempt but keeps a
    thread id that is already cached: the retry attaches to the same thread. *)
Theorem focus_keeps_cached_thread_id (W : Type) (os : Win32 W) (s : fstate W) (t : Z) :
  thread_id_cache (self s) = Some t ->
  thread_id_cache (self (snd (focus os s))) = Some t /\
  forall a b attach, In (EvAttach a b attach) (events (snd (focus os s))) ->
                     In (EvAttach a b attach) (events s) \/ b = t.
Proof.
  destruct s as [[pid0 nm base wn lh lt whc tc] w evs]. cbn [self thread_id_cache].
  intros ->. unfold_focus. unfold_py.
  split_run; (split; [reflexivity|]);
    intros ? tid ? Hin; rewrite ?in_app_iff in Hin; cbn [In] in Hin;
    repeat match goal with
      | H : _ \/ _ |- _ => destruct H
      | H : False |- _ => destruct H
      | H : _ = EvAttach _ _ _ |- _ => inversion H; subst; clear H
      end; auto; try discriminate.
Qed.

Lemma focus_keeps_cached_thread_id_witness :
  thread_id_cache
    (self (snd (focus desk {| self := self game_in_front; world := foreground_locked;
                              events := [] |}))) = Some 9.
Proof.
  apply (proj1 (focus_keeps_cached_thread_id Desk desk
                  {| self := self game_in_front; world := foreground_locked;
                     events := [] |} 9 eq_refl)).
Defined.

(** X14. When the target window is already in the foreground, [focus] followed by
    [focus_back_to_last_window] presses no key, attaches and detaches nothing
    and sets no foreground window: the snapshot window is the target, and the
    restore has nothing to do. *)
Theorem focus_pair_idle_when_in_front (W : Type) (os : Win32 W) (s : fstate W) :
  target_window os s = Return (GetForegroundWindow os (world s)) ->
  fst (focus_back_to_last_window os (snd (focus os s))) = Return tt /\
  focus_effects (events (snd (focus_back_to_last_window os (snd (focus os s))))) =
    focus_effects (events s).
Proof.
  destruct s as [[pid0 nm base wn lh lt whc tc] w evs].
  unfold target_window. cbn [self world window_handle_cache window_name].
  intros Ht. unfold_focus. unfold_py. destruct whc as [h|].
  - inversion Ht; subst h. simpl_run. rewrite !Z.eqb_refl. simpl_run.
    rewrite !Z.eqb_refl. simpl_run. split; reflexivity.
  - destruct (FindWindow os wn w) as [r w'] eqn:Hf. cbn [fst] in Ht. subst r.
    simpl_run. rewrite !Hf. simpl_run. rewrite !Z.eqb_refl. simpl_run.
    rewrite !Z.eqb_refl. simpl_run. unfold focus_effects. rewrite filter_app.
    cbn. rewrite app_nil_r. split; reflexivity.
Qed.

Lemma focus_pair_idle_when_in_front_witness :
  fst (focus_back_to_last_window desk (snd (focus desk game_in_front))) = Return tt /\
  focus_effects (events (snd (focus_back_to_last_window desk (snd (focus desk game_in_front))))) =
    focus_effects (events game_in_front).
Proof.
  apply (focus_pair_idle_when_in_front Desk desk game_in_front). reflexivity.
Defined.

(** X15. On a desktop where no call fails, [focus] on a window that is not in the
    foreground followed by [focus_back_to_last_window] makes one attempt and
    one restore: thread input is attached and then detached for the same pair
    of threads, the foreground goes to the target and then back to the window
    that had it when [focus] was called. *)
Theorem focus_pair_round_trip (W : Type) (os : Win32 W) (s : fstate W) (h : Z) :
  never_raises os ->
  target_window os s = Return h ->
  h <> GetForegroundWindow os (world s) ->
  exists tid,
    fst (focus os s) = Return tt /\
    fst (focus_back_to_last_window os (snd (focus os s))) = Return tt /\
    focus_effects (events (snd (focus_back_to_last_window os (snd (focus os s))))) =
      focus_effects (events s) ++
      [EvPress "alt" true;
       EvAttach (GetCurrentThreadId os (world s)) tid true;
       EvSetForeground h;
       EvPress "alt" false;
       EvAttach (GetCurrentThreadId os (world s)) tid false;
       EvSetForeground (GetForegroundWindow os (world s))].
Proof.
  intros (Hfind & Hgw & Hpress & Hatt & Hset).
  destruct s as [[pid0 nm base wn lh lt whc tc] w evs].
  unfold target_window. cbn [self world window_handle_cache window_name].
  intros Ht Hne. unfold_focus. unfold_py.
  split_run; units;
    try no_raise Hfind Hgw Hpress Hatt Hset;
    try (cbn [fst] in Ht; inversion Ht; subst; same_window);
    try (cbn [fst] in Ht; inversion Ht; subst; rewrite ?Z.eqb_refl in *; discriminate).
  all: cbn [fst] in Ht; inversion Ht; subst.
  all: eexists; split; [reflexivity|]; split; [reflexivity|].
  all: unfold focus_effects; rewrite !filter_app; cbn; rewrite <- ?app_assoc; reflexivity.
Qed.

Lemma focus_pair_round_trip_witness :
  exists tid,
    fst (focus quiet_desk (start editor_in_front)) = Return tt /\
    fst (focus_back_to_last_window quiet_desk (snd (focus quiet_desk (start editor_in_front)))) =
      Return tt /\
    focus_effects
      (events (snd (focus_back_to_last_window quiet_desk
                      (snd (focus quiet_desk (start editor_in_front)))))) =
      focus_effects [] ++
      [EvPress "alt" true; EvAttach 1 tid true; EvSetForeground 200;
       EvPress "alt" false; EvAttach 1 tid false; EvSetForeground 100].
Proof.
  apply (focus_pair_round_trip Desk quiet_desk (start editor_in_front) 200).
  - repeat split; intros; reflexivity.
  - reflexivity.
  - discriminate.
Defined.

Lemma focus_returns_with_handle_cached_witness :
  window_handle_cache (self (snd (focus desk (start editor_in_front)))) <> None.
Proof.
  apply (focus_returns_with_handle_cached Desk desk (start editor_in_front)).
  reflexivity.
Defined.

(** ** [char2key], [_prepare_lparam], [send_input] *)

Lemma land_255 (x : Z) : Z.land x 255 = x mod 256.
Proof. change 255 with (Z.ones 8). now rewrite Z.land_ones by lia. Qed.

(** X16. [char2key] returns the low byte of what [VkKeyScan] gives, a number from 0
    to 255: the shift state in the high byte is dropped, and the failure value
    -1 of [VkKeyScan] comes out as 255. *)
Theorem char2key_low_byte (W : Type) (kb : Keyboard W) (c : string) (s : istate W) (v : Z) :
  fst (char2key kb c s) = Return v ->
  0 <= v <= 255 /\
  exists r, fst (VkKeyScan kb c (world (desktop s))) = Return r /\ v = r mod 256 /\
            (r = -1 -> v = 255).
Proof.
  unfold char2key, kb_call, Py.bind, Py.ret.
  destruct (VkKeyScan kb c (world (desktop s))) as [[r|e] w']; cbn [fst]; intros H;
    [|discriminate H].
  inversion H; subst. rewrite land_255.
  split; [pose proof (Z.mod_pos_bound r 256); lia|].
  exists r. repeat split. intros ->. reflexivity.
Qed.

Lemma char2key_low_byte_witness :
  0 <= 255 <= 255 /\
  exists r, fst (VkKeyScan plain_keyboard "ctrl" (world (desktop (at_desk editor_in_front)))) =
              Return r /\ 255 = r mod 256 /\ (r = -1 -> 255 = 255).
Proof.
  apply (char2key_low_byte Desk plain_keyboard "ctrl" (at_desk editor_in_front) 255).
  reflexivity.
Defined.

Lemma lparam_layout_all : forallb lparam_layout_ok (map Z.of_nat (seq 0 256)) = true.
Proof. vm_compute. reflexivity. Qed.

Lemma lparam_layout (sc : Z) : 0 <= sc < 256 -> lparam_layout_ok sc = true.
Proof.
  intros Hsc. pose proof lparam_layout_all as H. rewrite forallb_forall in H.
  apply H. rewrite <- (Z2Nat.id sc) by lia. apply in_map, in_seq. lia.
Qed.

(** X17. [_prepare_lparam] puts the scan code in bits 16 to 23 and leaves the rest
    to the message: a key-down word has repeat count 0 and bits 30 and 31
    clear; a key-up word has repeat count 1 and bit 30 set, and its bit 31,
    the transition state, is clear as well. *)
Theorem prepare_lparam_layout (W : Type) (kb : Keyboard W) (vk sc : Z) (s : istate W) :
  fst (MapVirtualKey kb vk 0 (world (desktop s))) = Return sc ->
  0 <= sc < 256 ->
  exists down up,
    fst (_prepare_lparam kb WM_KEYDOWN vk s) = Return down /\
    fst (_prepare_lparam kb WM_KEYUP vk s) = Return up /\
    down = sc * 65536 /\ up = sc * 65536 + 1342177281 /\
    repeat_count down = 0 /\ repeat_count up = 1 /\
    scan_code down = sc /\ scan_code up = sc /\
    Z.testbit down 30 = false /\ Z.testbit down 31 = false /\
    Z.testbit up 30 = true /\ Z.testbit up 31 = false.
Proof.
  intros Hscan Hsc. unfold _prepare_lparam, kb_call, Py.bind, Py.ret.
  destruct (MapVirtualKey kb vk 0 (world (desktop s))) as [r w'].
  cbn [fst] in Hscan. subst r. cbn [fst].
  change (WM_KEYDOWN =? WM_KEYDOWN) with true. change (WM_KEYUP =? WM_KEYDOWN) with false.
  cbv iota.
  pose proof (lparam_layout sc Hsc) as H. unfold lparam_layout_ok in H.
  repeat (apply andb_prop in H; destruct H as [H ?]).
  repeat match goal with
    | Hn : negb _ = true |- _ => apply Bool.negb_true_iff in Hn
    | Hq : (_ =? _) = true |- _ => apply Z.eqb_eq in Hq
    end.
  eexists _, _. repeat split; eauto.
Qed.

Lemma prepare_lparam_layout_witness :
  exists down up,
    fst (_prepare_lparam plain_keyboard WM_KEYDOWN 65 (at_desk editor_in_front)) = Return down /\
    fst (_prepare_lparam plain_keyboard WM_KEYUP 65 (at_desk editor_in_front)) = Return up /\
    down = 32 * 65536 /\ up = 32 * 65536 + 1342177281 /\
    repeat_count down = 0 /\ repeat_count up = 1 /\
    scan_code down = 32 /\ scan_code up = 32 /\
    Z.testbit down 30 = false /\ Z.testbit down 31 = false /\
    Z.testbit up 30 = true /\ Z.testbit up 31 = false.
Proof.
  apply (prepare_lparam_layout Desk plain_keyboard 65 32 (at_desk editor_in_front)).
  - reflexivity.
  - lia.
Defined.

Lemma focus_effects_lookup (evs : list event) (title : string) :
  focus_effects (evs ++ [EvFindWindow title]) = focus_effects evs.
Proof. unfold focus_effects. rewrite filter_app. cbn. apply app_nil_r. Qed.

Lemma send_to_window_no_focus_effect (W : Type) (os : Win32 W) (kb : Keyboard W)
      (key : string) (s : istate W) :
  focus_effects (events (desktop (snd (send_to_window os kb key s)))) =
    focus_effects (events (desktop s)).
Proof.
  unfold_send. unfold_py. split_send; rewrite ?focus_effects_lookup; reflexivity.
Qed.

Lemma send_keys_no_focus_effect (W : Type) (os : Win32 W) (kb : Keyboard W) :
  forall keys s,
    focus_effects (events (desktop (snd (send_keys os kb true keys s)))) =
      focus_effects (events (desktop s)).
Proof.
  induction keys as [|key rest IH]; intros s; [reflexivity|].
  cbn [send_keys negb]. unfold Py.bind at 1.
  pose proof (send_to_window_no_focus_effect W os kb key s) as Hk.
  destruct (send_to_window os kb key s) as [[[]|e] s1]; cbn [snd] in *; [|exact Hk].
  unfold Py.bind at 1, deliver, Py.modify. rewrite IH. exact Hk.
Qed.

(** X18. Keys sent to the window itself, with [focus] and [focus_back] off, leave
    the desktop's focus alone: whatever the keys and whatever fails,
    [send_input] presses no key through the global path, attaches no thread
    input and sets no foreground window. *)
Theorem send_input_direct_leaves_focus (W : Type) (os : Win32 W) (kb : Keyboard W)
        (keys : list string) (s : istate W) :
  focus_effects (events (desktop (snd (send_input os kb keys false false true s)))) =
    focus_effects (events (desktop s)).
Proof.
  unfold send_input, focus_first, focus_last. unfold Py.bind at 1, Py.ret at 1.
  unfold Py.bind at 1.
  pose proof (send_keys_no_focus_effect W os kb keys s) as Hk.
  destruct (send_keys os kb true keys s) as [[[]|e] s1]; exact Hk.
Qed.

Lemma lor_512_all :
  forallb (fun v => Z.lor 512 v =? 512 + v) (map Z.of_nat (seq 0 256)) = true.
Proof. vm_compute. reflexivity. Qed.

Lemma lor_512 (v : Z) : 0 <= v <= 255 -> Z.lor 512 v = 512 + v.
Proof.
  intros Hv. pose proof lor_512_all as H. rewrite forallb_forall in H.
  apply Z.eqb_eq, H. rewrite <- (Z2Nat.id v) by lia. apply in_map, in_seq. lia.
Qed.

Lemma key_code_range (r : Z) (ctrl : bool) :
  0 <= (if ctrl then Z.lor 512 (Z.land r 255) else Z.land r 255) < 768.
Proof.
  rewrite land_255. pose proof (Z.mod_pos_bound r 256).
  destruct ctrl; [rewrite lor_512|]; lia.
Qed.

Lemma send_to_window_deliveries (W : Type) (os : Win32 W) (kb : Keyboard W)
      (key : string) (s : istate W) :
  fst (send_to_window os kb key s) = Return tt ->
  exists h vk lp_down lp_up,
    deliveries (snd (send_to_window os kb key s)) =
      deliveries s ++ [Sent h WM_KEYDOWN vk lp_down; SleepBetweenPresses;
                       Posted h WM_KEYUP vk lp_up] /\
    0 <= vk < 768.
Proof.
  unfold_send. unfold_py.
  change (WM_KEYDOWN =? WM_KEYDOWN) with true. change (WM_KEYUP =? WM_KEYDOWN) with false.
  split_send; intros Hret; try discriminate Hret; try congruence;
    repeat match goal with
      | H : Some _ = Some _ |- _ => inversion H; subst; clear H
      end;
    (do 4 eexists; split;
     [rewrite <- ?app_assoc; cbn [app]; reflexivity
     |first [ apply (key_code_range _ true) | apply (key_code_range _ false) ]]).
Qed.

Lemma send_keys_unfold (W : Type) (os : Win32 W) (kb : Keyboard W)
      (send_to_process : bool) (key : string) (rest : list string) (s : istate W) :
  send_keys os kb send_to_process (key :: rest) s =
    match (if negb send_to_process then press_key os key else send_to_window os kb key) s with
    | (Return _, s1) =>
        send_keys os kb send_to_process rest
                  {| desktop := desktop s1;
                     deliveries := deliveries s1 ++ [SleepBetweenKeys] |}
    | (Raise e, s1) => (Raise e, s1)
    end.
Proof.
  cbn [send_keys]. unfold Py.bind at 1.
  destruct send_to_process; cbn [negb].
  - destruct (send_to_window os kb key s) as [[[]|e] s1]; reflexivity.
  - destruct (press_key os key s) as [[[]|e] s1]; reflexivity.
Qed.

Lemma send_keys_deliveries (W : Type) (os : Win32 W) (kb : Keyboard W) :
  forall keys s,
    fst (send_keys os kb true keys s) = Return tt ->
    exists pairs,
      List.length pairs = List.length keys /\
      Forall vk_in_range pairs /\
      deliveries (snd (send_keys os kb true keys s)) =
        deliveries s ++ flat_map key_deliveries pairs.
Proof.
  induction keys as [|key rest IH]; intros s.
  - intros _. exists []. cbn. rewrite app_nil_r. auto.
  - rewrite send_keys_unfold. cbn [negb].
    pose proof (send_to_window_deliveries W os kb key s) as Hk.
    destruct (send_to_window os kb key s) as [[[]|e] s1]; cbn [fst snd] in *;
      [|discriminate].
    destruct (Hk eq_refl) as (h & vk & l1 & l2 & Hd & Hvk).
    intros Hret. destruct (IH _ Hret) as (pairs & Hlen & Hall & Hds).
    exists ((h, vk, l1, l2) :: pairs). split; [cbn; now rewrite Hlen|].
    split; [constructor; [exact Hvk|exact Hall]|].
    rewrite Hds. cbn [deliveries flat_map key_deliveries]. rewrite Hd.
    rewrite <- !app_assoc. reflexivity.
Qed.

Lemma on_desktop_deliveries (W : Type) (A : Type) (m : Py.M (fstate W) A) (s : istate W) :
  deliveries (snd (on_desktop W m s)) = deliveries s.
Proof. unfold on_desktop. now destruct (m (desktop s)). Qed.

Lemma send_input_unfold (W : Type) (os : Win32 W) (kb : Keyboard W) (keys : list string)
      (focus_flag focus_back_flag send_to_process : bool) (s : istate W) :
  send_input os kb keys focus_flag focus_back_flag send_to_process s =
    match focus_first os focus_flag s with
    | (Return _, s1) =>
        match send_keys os kb send_to_process keys s1 with
        | (Return _, s2) => focus_last os focus_back_flag s2
        | (Raise e, s2) => (Raise e, s2)
        end
    | (Raise e, s1) => (Raise e, s1)
    end.
Proof.
  unfold send_input. unfold Py.bind at 1.
  destruct (focus_first os focus_flag s) as [[[]|e] s1]; [|reflexivity].
  unfold Py.bind at 1.
  destruct (send_keys os kb send_to_process keys s1) as [[[]|e] s2]; reflexivity.
Qed.

Lemma focus_first_deliveries (W : Type) (os : Win32 W) (focus_flag : bool) (s : istate W) :
  fst (focus_first os focus_flag s) = Return tt ->
  deliveries (snd (focus_first os focus_flag s)) =
    deliveries s ++ if focus_flag then [SleepBetweenPresses] else [].
Proof.
  unfold focus_first. destruct focus_flag.
  - unfold Py.bind. pose proof (on_desktop_deliveries W unit (focus os) s) as Hd.
    destruct (on_desktop W (focus os) s) as [[[]|e] s0]; cbn [fst snd] in *;
      [|discriminate]. intros _. unfold deliver, Py.modify. cbn. now rewrite Hd.
  - intros _. cbn. now rewrite app_nil_r.
Qed.

Lemma focus_last_deliveries (W : Type) (os : Win32 W) (focus_back_flag : bool)
      (s : istate W) :
  deliveries (snd (focus_last os focus_back_flag s)) = deliveries s.
Proof.
  unfold focus_last. destruct focus_back_flag; [apply on_desktop_deliveries|reflexivity].
Qed.

(** X19. When [send_input] returns after sending keys to the window, it has
    delivered, for each key in order, one key-down message with [SendMessage]
    and then one key-up message with [PostMessage], both to the same window
    and with the same virtual-key code, which is below 768; nothing else is
    sent or posted. *)
Theorem send_input_direct_deliveries (W : Type) (os : Win32 W) (kb : Keyboard W)
        (keys : list string) (focus_flag focus_back_flag : bool) (s : istate W) :
  fst (send_input os kb keys focus_flag focus_back_flag true s) = Return tt ->
  exists pairs,
    List.length pairs = List.length keys /\
    Forall vk_in_range pairs /\
    deliveries (snd (send_input os kb keys focus_flag focus_back_flag true s)) =
      deliveries s ++ (if focus_flag then [SleepBetweenPresses] else []) ++
      flat_map key_deliveries pairs.
Proof.
  rewrite send_input_unfold.
  pose proof (focus_first_deliveries W os focus_flag s) as Hp.
  destruct (focus_first os focus_flag s) as [[[]|e] s1]; cbn [fst snd] in *; [|discriminate].
  specialize (Hp eq_refl).
  pose proof (send_keys_deliveries W os kb keys s1) as Hk.
  destruct (send_keys os kb true keys s1) as [[[]|e] s2]; cbn [fst snd] in *;
    [|discriminate].
  destruct (Hk eq_refl) as (pairs & Hlen & Hall & Hds).
  intros Hret. exists pairs. split; [exact Hlen|]. split; [exact Hall|].
  rewrite focus_last_deliveries, Hds, Hp. now rewrite <- app_assoc.
Qed.

Lemma send_input_direct_deliveries_witness :
  exists pairs,
    List.length pairs = 2%nat /\
    Forall vk_in_range pairs /\
    deliveries (snd (send_input desk plain_keyboard ["a"; "s+ctrl"] false false true
                                (at_desk editor_in_front))) =
      [] ++ [] ++ flat_map key_deliveries pairs.
Proof.
  apply (send_input_direct_deliveries Desk desk plain_keyboard ["a"; "s+ctrl"]
           false false (at_desk editor_in_front)).
  reflexivity.
Defined.

(** The keys of the example, as delivered: "a" as virtual key 97, "s+ctrl"
    as 115 with bit 9 set, each down and then up to window 200. *)
Example send_input_direct_example :
  deliveries (snd (send_input desk plain_keyboard ["a"; "s+ctrl"] false false true
                              (at_desk editor_in_front))) =
    [Sent 200 256 97 3145728; SleepBetweenPresses;
     Posted 200 257 97 1345323009; SleepBetweenKeys;
     Sent 200 256 627 3735552; SleepBetweenPresses;
     Posted 200 257 627 1345912833; SleepBetweenKeys].
Proof. reflexivity. Qed.

(** X20. When [focus] raises, [send_input] raises the same exception at once: no
    key is pressed or delivered, there is no wait, and
    [focus_back_to_last_window] is not called. *)
Theorem send_input_focus_failure (W : Type) (os : Win32 W) (kb : Keyboard W)
        (keys : list string) (focus_back_flag send_to_process : bool)
        (s : istate W) (e : exn) :
  fst (focus os (desktop s)) = Raise e ->
  send_input os kb keys true focus_back_flag send_to_process s =
    (Raise e, {| desktop := snd (focus os (desktop s)); deliveries := deliveries s |}).
Proof.
  intros Hf. rewrite send_input_unfold. unfold focus_first, Py.bind, on_desktop.
  destruct (focus os (desktop s)) as [r d]. cbn [fst snd] in *. now subst r.
Qed.

Lemma send_input_focus_failure_witness :
  send_input desk plain_keyboard ["a"] true true true (at_desk attach_refused) =
    (Raise (AttributeError "window_handle"),
     {| desktop := snd (focus desk (desktop (at_desk attach_refused)));
        deliveries := deliveries (at_desk attach_refused) |}).
Proof.
  apply (send_input_focus_failure Desk desk plain_keyboard ["a"] true true
           (at_desk attach_refused) (AttributeError "window_handle")).
  reflexivity.
Defined.

Lemma send_step_events (W : Type) (os : Win32 W) (kb : Keyboard W)
      (send_to_process : bool) (key : string) (s : istate W) :
  exists added,
    events (desktop (snd ((if negb send_to_process
                           then press_key os key
                           else send_to_window os kb key) s))) =
      events (desktop s) ++ added /\
    Forall (fun ev => uses_no_restore ev = true) added.
Proof.
  destruct send_to_process; cbn [negb]; unfold_send; unfold_py;
    split_send;
    (eexists; split;
     [rewrite <- ?app_assoc; cbn [app]; try reflexivity; symmetry; apply app_nil_r
     |repeat constructor]).
Qed.

Lemma send_keys_events (W : Type) (os : Win32 W) (kb : Keyboard W) (send_to_process : bool) :
  forall keys s,
    exists added,
      events (desktop (snd (send_keys os kb send_to_process keys s))) =
        events (desktop s) ++ added /\
      Forall (fun ev => uses_no_restore ev = true) added.
Proof.
  induction keys as [|key rest IH]; intros s.
  - exists []. cbn. rewrite app_nil_r. auto.
  - rewrite send_keys_unfold.
    destruct (send_step_events W os kb send_to_process key s) as (added & Hev & Hall).
    destruct ((if negb send_to_process then press_key os key else send_to_window os kb key) s)
      as [[[]|e] s1]; cbn [snd] in *.
    + destruct (IH {| desktop := desktop s1;
                      deliveries := deliveries s1 ++ [SleepBetweenKeys] |})
        as (added' & Hev' & Hall').
      exists (added ++ added'). split.
      * rewrite Hev'. cbn [desktop]. rewrite Hev. now rewrite app_assoc.
      * apply Forall_app. auto.
    + exists added. auto.
Qed.

(** X21. When a key fails, [send_input] raises that exception right away, also
    with [focus_back] set: [focus_back_to_last_window] is not called, so the
    thread input that [focus] attached stays attached and the window that had
    the focus does not get it back. *)
Theorem send_input_key_failure_skips_restore (W : Type) (os : Win32 W) (kb : Keyboard W)
        (keys : list string) (focus_flag focus_back_flag send_to_process : bool)
        (s s1 : istate W) (e : exn) :
  focus_first os focus_flag s = (Return tt, s1) ->
  fst (send_keys os kb send_to_process keys s1) = Raise e ->
  fst (send_input os kb keys focus_flag focus_back_flag send_to_process s) = Raise e /\
  exists added,
    events (desktop (snd (send_input os kb keys focus_flag focus_back_flag
                                     send_to_process s))) =
      events (desktop s1) ++ added /\
    Forall (fun ev => uses_no_restore ev = true) added.
Proof.
  intros Hfirst Hkeys. rewrite send_input_unfold, Hfirst.
  destruct (send_keys_events W os kb send_to_process keys s1) as (added & Hev & Hall).
  destruct (send_keys os kb send_to_process keys s1) as [[[]|e'] s2];
    cbn [fst snd] in *; [discriminate|].
  inversion Hkeys; subst. split; [reflexivity|]. exists added. auto.
Qed.

Lemma press_key_run (W : Type) (os : Win32 W) (key : string) (s : istate W) :
  press_key os key s =
    (fst (press_and_release os key true (world (desktop s))),
     {| desktop := {| self := self (desktop s);
                      world := snd (press_and_release os key true (world (desktop s)));
                      events := events (desktop s) ++ [EvPress key true] |};
        deliveries := deliveries s |}).
Proof.
  unfold press_key, on_desktop, os_call, emit. unfold_py. cbn [world self events].
  now destruct (press_and_release os key true (world (desktop s))).
Qed.

Lemma send_keys_mediated (W : Type) (os : Win32 W) (kb : Keyboard W) :
  forall keys s,
    fst (send_keys os kb false keys s) = Return tt ->
    events (desktop (snd (send_keys os kb false keys s))) =
      events (desktop s) ++ map (fun key => EvPress key true) keys /\
    deliveries (snd (send_keys os kb false keys s)) =
      deliveries s ++ repeat SleepBetweenKeys (List.length keys).
Proof.
  induction keys as [|key rest IH]; intros s.
  - intros _. cbn. now rewrite !app_nil_r.
  - rewrite send_keys_unfold. cbn [negb]. rewrite press_key_run.
    destruct (fst (press_and_release os key true (world (desktop s)))) as [[]|e];
      [|discriminate].
    intros Hret. destruct (IH _ Hret) as (Hev & Hd).
    rewrite Hev, Hd. cbn [desktop deliveries events map List.length repeat].
    now rewrite <- !app_assoc.
Qed.

(** X22. Without [send_to_process], and with [focus] and [focus_back] off, a
    [send_input] that returns has pressed the keys in their order through
    [press_and_release], with [precise] set, and has sent or posted no window
    message: its only other steps are the waits between keys. *)
Theorem send_input_mediated_presses_in_order (W : Type) (os : Win32 W) (kb : Keyboard W)
        (keys : list string) (s : istate W) :
  fst (send_input os kb keys false false false s) = Return tt ->
  events (desktop (snd (send_input os kb keys false false false s))) =
    events (desktop s) ++ map (fun key => EvPress key true) keys /\
  deliveries (snd (send_input os kb keys false false false s)) =
    deliveries s ++ repeat SleepBetweenKeys (List.length keys).
Proof.
  rewrite send_input_unfold. unfold focus_first, focus_last, Py.ret.
  pose proof (send_keys_mediated W os kb keys s) as Hk.
  destruct (send_keys os kb false keys s) as [[[]|e] s2]; cbn [fst snd] in *;
    [|discriminate].
  intros _. exact (Hk eq_refl).
Qed.

Lemma send_input_key_failure_skips_restore_witness :
  fst (send_input desk plain_keyboard ["f1"; "f2"] true true false
                  (at_desk second_press_fails)) = Raise (OSError 1) /\
  exists added,
    events (desktop (snd (send_input desk plain_keyboard ["f1"; "f2"] true true false
                                     (at_desk second_press_fails)))) =
      events (desktop (snd (focus_first desk true (at_desk second_press_fails)))) ++ added /\
    Forall (fun ev => uses_no_restore ev = true) added.
Proof.
  apply (send_input_key_failure_skips_restore Desk desk plain_keyboard ["f1"; "f2"]
           true true false (at_desk second_press_fails)
           (snd (focus_first desk true (at_desk second_press_fails))) (OSError 1));
    reflexivity.
Defined.

Lemma send_input_mediated_presses_in_order_witness :
  events (desktop (snd (send_input desk plain_keyboard ["f1"; "f2"] false false false
                                   (at_desk editor_in_front)))) =
    [] ++ map (fun key => EvPress key true) ["f1"; "f2"] /\
  deliveries (snd (send_input desk plain_keyboard ["f1"; "f2"] false false false
                              (at_desk editor_in_front))) =
    [] ++ repeat SleepBetweenKeys 2.
Proof.
  apply (send_input_mediated_presses_in_order Desk desk plain_keyboard ["f1"; "f2"]
           (at_desk editor_in_front)).
  reflexivity.
Defined.

(** [key.split('+')] is never empty, so that [_keys[0]] is always there. *)
Lemma split_plus_nonempty (key : string) : split_plus key <> [].
Proof.
  unfold split_plus. generalize EmptyString as piece.
  induction key as [|c key IH]; intros piece; cbn [split_plus_from]; [discriminate|].
  destruct (Ascii.eqb c "+"%char); [discriminate|apply IH].
Qed.

(** ** [focus]: attempts and the handle it ends on *)

(** X11. [focus] makes at most two attempts: it presses alt at most twice,
    attaches thread input at most twice and asks for the foreground at most
    twice.  It waits at most twice and never more often than it has pressed
    alt.  When it returns it has waited at most once: either it made no
    attempt, or it waited once for each attempt but the last, the one that
    went through. *)
Theorem focus_bounded_attempts (W : Type) (os : Win32 W) (s : fstate W) :
  exists evs,
    events (snd (focus os s)) = events s ++ evs /\
    (count_events is_press evs <= 2)%nat /\
    (count_events is_attach evs <= 2)%nat /\
    (count_events is_set_foreground evs <= 2)%nat /\
    (count_events is_sleep evs <= 2)%nat /\
    (count_events is_sleep evs <= count_events is_press evs)%nat /\
    (fst (focus os s) = Return tt ->
     (count_events is_sleep evs <= 1)%nat /\
     (count_events is_press evs = 0%nat \/
      count_events is_press evs = S (count_events is_sleep evs))).
Proof.
  unfold_focus. unfold_py.
  split_run;
    first [ congruence
          | eexists; split;
            [rewrite <- ?app_assoc; cbn [app]; try reflexivity; symmetry; apply app_nil_r
            |cbn; repeat split; try lia; intros; first [congruence | lia] ] ].
Qed.

(** X12. A [focus] that returns has the window handle cached, and unless the
    window was in the foreground already, the last thing it did was to ask
    for the foreground for that very handle: after a retry this is the handle
    that was looked up afresh. *)
Theorem focus_ends_on_cached_handle (W : Type) (os : Win32 W) (s : fstate W) :
  fst (focus os s) = Return tt ->
  exists h,
    window_handle_cache (self (snd (focus os s))) = Some h /\
    (h = GetForegroundWindow os (world s) \/
     exists evs, events (snd (focus os s)) = evs ++ [EvSetForeground h]).
Proof.
  destruct s as [[pid0 nm base wn lh lt whc tc] w evs].
  unfold_focus. unfold_py.
  split_run; intros Hret; try discriminate Hret; try congruence;
    (eexists; split; [reflexivity|]);
    first [ right; eexists; reflexivity
          | left;
            repeat match goal with
              | H : Some _ = Some _ |- _ => inversion H; subst; clear H
              end;
            match goal with
            | Hb : negb (_ =? _) = false |- _ =>
                apply Bool.negb_false_iff, Z.eqb_eq in Hb; congruence
            end ].
Qed.

Lemma focus_ends_on_cached_handle_witness :
  exists h,
    window_handle_cache
      (self (snd (focus desk {| self := self game_in_front; world := editor_in_front;
                                events := [] |}))) = Some h /\
    (h = 100 \/
     exists evs,
       events (snd (focus desk {| self := self game_in_front; world := editor_in_front;
                                  events := [] |})) = evs ++ [EvSetForeground h]).
Proof.
  apply (focus_ends_on_cached_handle Desk desk
           {| self := self game_in_front; world := editor_in_front; events := [] |}).
  reflexivity.
Defined.
